(** * Crawlability checker: a shallow embedding of [crawl_checker_app.py]

    The development follows the per-site pipeline [check_site] of the
    application.  Python text is modelled by [string]: characters below 128
    are ASCII, and a character from 128 on stands for some non-ASCII code
    point that is neither whitespace, nor cased, nor a digit, nor a line
    boundary.  The labels of the result record are kept as the UTF-8
    encoding of the source's literals.

    The network, the clock and the URL functions of [urllib.parse] are the
    fields of a [World]; [urllib.robotparser], the four regular expressions
    and the string methods the pipeline calls are modelled in full. *)

From Stdlib Require Import String Ascii List ZArith NArith Lia Bool Permutation.
From Stdlib Require Import DecimalString.
Import ListNotations.

Local Open Scope list_scope.
Local Open Scope string_scope.

(** ** Python [str] methods used by the application *)

Module PyStr.

Definition LF : ascii := "010"%char.
Definition CR : ascii := "013"%char.

(** One-character strings for building multi-line texts. *)
Definition nl : string := String LF EmptyString.
Definition cr : string := String CR EmptyString.

Definition code (c : ascii) : N := N_of_ascii c.

(** [str.isspace] on one character, which is also the class [\s] of [re]:
    TAB, LF, VT, FF, CR, the separators 0x1c..0x1f and the space. *)
Definition isspace (c : ascii) : bool :=
  ((9 <=? code c) && (code c <=? 13))%N || ((28 <=? code c) && (code c <=? 32))%N.

Definition isupper (c : ascii) : bool :=
  ((65 <=? code c) && (code c <=? 90))%N.

Definition lower_char (c : ascii) : ascii :=
  if isupper c then ascii_of_N (code c + 32) else c.

(** [s.lower()] *)
Fixpoint lower (s : string) : string :=
  match s with
  | EmptyString => EmptyString
  | String c t => String (lower_char c) (lower t)
  end.

(** [s.startswith(p)] *)
Definition startswith (s p : string) : bool := String.prefix p s.

(** [needle in hay] *)
Fixpoint contains (needle hay : string) : bool :=
  String.prefix needle hay
  || match hay with
     | EmptyString => false
     | String _ t => contains needle t
     end.

(** [c in s] for a one-character [c]. *)
Fixpoint occurs (c : ascii) (s : string) : bool :=
  match s with
  | EmptyString => false
  | String d t => Ascii.eqb d c || occurs c t
  end.

(** Truth value of a string: [bool(s)]. *)
Definition truthy (s : string) : bool :=
  match s with EmptyString => false | String _ _ => true end.

Fixpoint lstrip (s : string) : string :=
  match s with
  | EmptyString => EmptyString
  | String c t => if isspace c then lstrip t else s
  end.

Fixpoint rstrip (s : string) : string :=
  match s with
  | EmptyString => EmptyString
  | String c t =>
      match rstrip t with
      | EmptyString => if isspace c then EmptyString else String c EmptyString
      | r => String c r
      end
  end.

(** [s.strip()] *)
Definition strip (s : string) : string := rstrip (lstrip s).

(** Line boundaries of [str.splitlines]: LF, VT, FF, CR, 0x1c, 0x1d, 0x1e. *)
Definition is_linebreak (c : ascii) : bool :=
  ((10 <=? code c) && (code c <=? 13))%N || ((28 <=? code c) && (code c <=? 30))%N.

(** [splitlines_go after_cr s]: the lines of [s], where [after_cr] says
    that the previous character was a CR, so that a LF now belongs to the
    same boundary.  The head of the result is the line being read. *)
Fixpoint splitlines_go (after_cr : bool) (s : string) : list string :=
  match s with
  | EmptyString => []
  | String c t =>
      if after_cr && Ascii.eqb c LF then splitlines_go false t
      else if is_linebreak c then EmptyString :: splitlines_go (Ascii.eqb c CR) t
      else match splitlines_go false t with
           | [] => [String c EmptyString]
           | l :: ls => String c l :: ls
           end
  end.

(** [s.splitlines()] *)
Definition splitlines (s : string) : list string := splitlines_go false s.

(** [s.find(c)] for a one-character [c], as an option instead of [-1]. *)
Fixpoint find (c : ascii) (s : string) : option nat :=
  match s with
  | EmptyString => None
  | String d t =>
      if Ascii.eqb d c then Some 0
      else match find c t with Some i => Some (S i) | None => None end
  end.

(** [s.split(c, 1)]: one piece when [c] does not occur, two otherwise. *)
Fixpoint split1 (c : ascii) (s : string) : string * option string :=
  match s with
  | EmptyString => (EmptyString, None)
  | String d t =>
      if Ascii.eqb d c then (EmptyString, Some t)
      else let (a, b) := split1 c t in (String d a, b)
  end.

(** [s.split(c)] *)
Fixpoint split (c : ascii) (s : string) : list string :=
  match s with
  | EmptyString => [EmptyString]
  | String d t =>
      if Ascii.eqb d c then EmptyString :: split c t
      else match split c t with
           | [] => [String d EmptyString]
           | l :: ls => String d l :: ls
           end
  end.

Definition is_digit_char (c : ascii) : bool :=
  ((48 <=? code c) && (code c <=? 57))%N.

Fixpoint all_digits (s : string) : bool :=
  match s with
  | EmptyString => true
  | String c t => is_digit_char c && all_digits t
  end.

(** [s.isdigit()]: at least one character, all of them digits. *)
Definition isdigit (s : string) : bool := truthy s && all_digits s.

Fixpoint int_go (acc : N) (s : string) : N :=
  match s with
  | EmptyString => acc
  | String c t => int_go (10 * acc + (code c - 48))%N t
  end.

(** [int(s)] on a string whose stripped form passed [isdigit]; Python's
    integers are unbounded, so the value is an [N]. *)
Definition int (s : string) : N := int_go 0%N (strip s).

(** [sep.join(l)] *)
Definition join (sep : string) (l : list string) : string := String.concat sep l.

(** [str(n)] for integers. *)
Definition str_Z (z : Z) : string := NilZero.string_of_int (Z.to_int z).
Definition str_N (n : N) : string := NilZero.string_of_uint (N.to_uint n).

End PyStr.

(** ** The regular expressions of the application

    [re.findall] scans the text from left to right; after a match it resumes
    at the end of the match.  Every pattern of the application starts with a
    literal, so a match is never empty, and has exactly one group, so
    [findall] returns the list of the texts of that group. *)

Module Re.
Import PyStr.

(** The longest run of characters matched by [.]: everything up to the
    next LF. *)
Fixpoint dot_run (s : string) : string :=
  match s with
  | EmptyString => EmptyString
  | String c t => if Ascii.eqb c LF then EmptyString else String c (dot_run t)
  end.

(** Removes a literal prefix; with [ci] the comparison ignores case, as
    under the flag [(?i)]. *)
Fixpoint strip_prefix (ci : bool) (p s : string) : option string :=
  match p, s with
  | EmptyString, _ => Some s
  | String _ _, EmptyString => None
  | String a p', String b s' =>
      if (if ci then Ascii.eqb (lower_char a) (lower_char b) else Ascii.eqb a b)
      then strip_prefix ci p' s'
      else None
  end.

(** [\s*(.+)] at the head of [s]: the group and the number of characters
    matched.  [\s*] is greedy: it first tries to take one more whitespace
    character, and gives it back when [(.+)] cannot match after it. *)
Fixpoint ws_dotplus (s : string) : option (string * nat) :=
  match s with
  | EmptyString => None
  | String c t =>
      if isspace c then
        match ws_dotplus t with
        | Some (g, n) => Some (g, S n)
        | None =>
            if Ascii.eqb c LF then None
            else Some (dot_run s, String.length (dot_run s))
        end
      else Some (dot_run s, String.length (dot_run s))
  end.

(** The same with a group that may be empty ([.] repeated zero or more
    times): no character is ever given back. *)
Fixpoint ws_dotstar (s : string) : string * nat :=
  match s with
  | EmptyString => (EmptyString, 0)
  | String c t =>
      if isspace c then let (g, n) := ws_dotstar t in (g, S n)
      else (dot_run s, String.length (dot_run s))
  end.

(** [(.*?)close] at the head of [s]: the shortest run of [.] followed by
    the literal [close]. *)
Fixpoint lazy_until (close : string) (s : string) : option (string * nat) :=
  if String.prefix close s then Some (EmptyString, String.length close)
  else match s with
       | EmptyString => None
       | String c t =>
           if Ascii.eqb c LF then None
           else match lazy_until close t with
                | Some (g, n) => Some (String c g, S n)
                | None => None
                end
       end.

(** The scan of [findall].  [m] matches the pattern at the head of its
    argument and returns the group with the length of the match; [bol_only]
    says that the pattern starts with [^] under [re.MULTILINE]; [skip]
    counts the characters of the last match still to pass; [bol] says that
    the position is at the start of the text or just after a LF. *)
Fixpoint findall_go (m : string -> option (string * nat)) (bol_only : bool)
         (skip : nat) (bol : bool) (s : string) : list string :=
  match s with
  | EmptyString => []
  | String c t =>
      let bol' := Ascii.eqb c LF in
      match skip with
      | S k => findall_go m bol_only k bol' t
      | O =>
          if negb bol_only || bol then
            match m s with
            | Some (g, n) => g :: findall_go m bol_only (pred n) bol' t
            | None => findall_go m bol_only 0 bol' t
            end
          else findall_go m bol_only 0 bol' t
      end
  end.

Definition findall (m : string -> option (string * nat)) (bol_only : bool)
           (s : string) : list string :=
  findall_go m bol_only 0 true s.

(** Whether the position after the text [u] is at the start of a line,
    when the position before it is ([bol]) or is not. *)
Fixpoint bol_after (bol : bool) (u : string) : bool :=
  match u with
  | EmptyString => bol
  | String c t => bol_after (Ascii.eqb c LF) t
  end.

(** A value that a directive line carries as it stands: it starts with a
    character that is not whitespace and it has no LF. *)
Definition clean_value (x : string) : bool :=
  match x with
  | EmptyString => false
  | String c _ => negb (isspace c) && negb (occurs LF x)
  end.

(** [(?i)^Sitemap:\s*(.+)] *)
Definition sitemap_pattern (s : string) : option (string * nat) :=
  match strip_prefix true "Sitemap:" s with
  | Some r =>
      match ws_dotplus r with
      | Some (g, n) => Some (g, String.length "Sitemap:" + n)
      | None => None
      end
  | None => None
  end.

(** The patterns of the [Allow:] and [Disallow:] lists: [^], the literal
    [name], [\s*] and a group of [.] repeated zero or more times. *)
Definition directive_pattern (name : string) (s : string) : option (string * nat) :=
  match strip_prefix false name s with
  | Some r => let (g, n) := ws_dotstar r in Some (g, String.length name + n)
  | None => None
  end.

(** [<loc>(.*?)</loc>] *)
Definition loc_pattern (s : string) : option (string * nat) :=
  match strip_prefix false "<loc>" s with
  | Some r =>
      match lazy_until "</loc>" r with
      | Some (g, n) => Some (g, String.length "<loc>" + n)
      | None => None
      end
  | None => None
  end.

End Re.

(** ** Exceptions and the world outside the program *)

(** A call either returns a value or raises an exception, of which the
    program only ever reads the message [str(e)]. *)
Inductive outcome (A : Type) : Type :=
| Return (a : A)
| Raise (e : string).

Arguments Return {A} a.
Arguments Raise {A} e.

Definition bind {A B : Type} (m : outcome A) (k : A -> outcome B) : outcome B :=
  match m with
  | Return a => k a
  | Raise e => Raise e
  end.

Notation "x <- m ;; k" := (bind m (fun x => k))
  (at level 61, m at next level, right associativity).

(** The six components of [urllib.parse.urlparse]'s result. *)
Record ParseResult : Type := mkParseResult {
  scheme : string;
  netloc : string;
  path : string;
  params : string;
  query : string;
  fragment : string
}.

(** What the program reads of a [requests] response. *)
Record Response : Type := mkResponse {
  status_code : Z;
  text : string
}.

(** The library calls whose result is not decided by the program: the URL
    functions of [urllib.parse] ([urlparse] raises [ValueError] on some
    inputs), [requests.get] with its timeout, which returns a response or
    raises, and [time.time], a positive number of seconds. *)
Record World : Type := mkWorld {
  urlparse : string -> outcome ParseResult;
  urlunparse : ParseResult -> string;
  quote : string -> string;
  unquote : string -> string;
  requests_get : string -> Z -> outcome Response;
  time_time : positive
}.

(** ** [urllib.robotparser] *)

Module RobotParser.
Import PyStr.

Record RuleLine : Type := mkRuleLine {
  rl_path : string;
  rl_allowance : bool
}.

Record Entry : Type := mkEntry {
  useragents : list string;
  rulelines : list RuleLine;
  delay : option N;
  req_rate : option (N * N)
}.

Record RobotFileParser : Type := mkRobotFileParser {
  entries : list Entry;
  sitemaps : list string;
  default_entry : option Entry;
  disallow_all : bool;
  allow_all : bool;
  rp_url : string;
  rp_host : string;
  rp_path : string;
  last_checked : Z
}.

(** [RuleLine.__init__]: an empty [Disallow] value means allow all. *)
Definition RuleLine_init (w : World) (path0 : string) (allowance : bool)
  : outcome RuleLine :=
  let allowance :=
    if String.eqb path0 EmptyString && negb allowance then true else allowance in
  parsed <- urlparse w path0 ;;
  let path1 := urlunparse w parsed in
  Return (mkRuleLine (quote w path1) allowance).

Definition RuleLine_applies_to (r : RuleLine) (filename : string) : bool :=
  String.eqb (rl_path r) "*" || startswith filename (rl_path r).

Definition Entry_init : Entry := mkEntry [] [] None None.

(** The loop of [Entry.applies_to] over the agents of the entry, with the
    requested agent already cut at its first [/] and lowered. *)
Fixpoint agents_apply (agents : list string) (useragent : string) : bool :=
  match agents with
  | [] => false
  | agent :: rest =>
      if String.eqb agent "*" then true
      else if contains (lower agent) useragent then true
      else agents_apply rest useragent
  end.

Definition Entry_applies_to (e : Entry) (useragent : string) : bool :=
  let useragent := lower (hd EmptyString (split "/" useragent)) in
  agents_apply (useragents e) useragent.

(** The loop of [Entry.allowance]: the first rule line that applies
    decides, and no rule line means allowed. *)
Fixpoint lines_allowance (rules : list RuleLine) (filename : string) : bool :=
  match rules with
  | [] => true
  | line :: rest =>
      if RuleLine_applies_to line filename then rl_allowance line
      else lines_allowance rest filename
  end.

Definition Entry_allowance (e : Entry) (filename : string) : bool :=
  lines_allowance (rulelines e) filename.

Definition set_url (w : World) (self : RobotFileParser) (url : string)
  : outcome RobotFileParser :=
  parsed <- urlparse w url ;;
  Return (mkRobotFileParser (entries self) (sitemaps self) (default_entry self)
            (disallow_all self) (allow_all self) url (netloc parsed) (path parsed)
            (last_checked self)).

(** [RobotFileParser()] *)
Definition RobotFileParser_init (w : World) : outcome RobotFileParser :=
  self <- set_url w (mkRobotFileParser [] [] None false false
                       EmptyString EmptyString EmptyString 0) EmptyString ;;
  Return (mkRobotFileParser (entries self) (sitemaps self) (default_entry self)
            (disallow_all self) (allow_all self) (rp_url self) (rp_host self)
            (rp_path self) 0).

Definition modified (w : World) (self : RobotFileParser) : RobotFileParser :=
  mkRobotFileParser (entries self) (sitemaps self) (default_entry self)
    (disallow_all self) (allow_all self) (rp_url self) (rp_host self) (rp_path self)
    (Z.pos (time_time w)).

Definition set_entries (self : RobotFileParser) (es : list Entry) : RobotFileParser :=
  mkRobotFileParser es (sitemaps self) (default_entry self)
    (disallow_all self) (allow_all self) (rp_url self) (rp_host self) (rp_path self)
    (last_checked self).

Definition set_default_entry (self : RobotFileParser) (e : Entry) : RobotFileParser :=
  mkRobotFileParser (entries self) (sitemaps self) (Some e)
    (disallow_all self) (allow_all self) (rp_url self) (rp_host self) (rp_path self)
    (last_checked self).

Definition add_sitemap (self : RobotFileParser) (s : string) : RobotFileParser :=
  mkRobotFileParser (entries self) (sitemaps self ++ [s])%list (default_entry self)
    (disallow_all self) (allow_all self) (rp_url self) (rp_host self) (rp_path self)
    (last_checked self).

(** ["*" in entry.useragents] *)
Definition has_star (agents : list string) : bool :=
  existsb (fun a => String.eqb a "*") agents.

(** [_add_entry]: the first entry naming [*] becomes the default entry,
    later ones are dropped; the others are appended in order. *)
Definition _add_entry (self : RobotFileParser) (entry : Entry) : RobotFileParser :=
  if has_star (useragents entry) then
    match default_entry self with
    | None => set_default_entry self entry
    | Some _ => self
    end
  else set_entries self (entries self ++ [entry])%list.

(** The loop state of [parse]: [state] is 0 at the start, 1 after a
    user-agent line, 2 after a rule line. *)
Record ParseState : Type := mkParseState {
  state : Z;
  entry : Entry;
  self : RobotFileParser
}.

Definition add_useragent (e : Entry) (a : string) : Entry :=
  mkEntry (useragents e ++ [a])%list (rulelines e) (delay e) (req_rate e).

Definition add_ruleline (e : Entry) (r : RuleLine) : Entry :=
  mkEntry (useragents e) (rulelines e ++ [r])%list (delay e) (req_rate e).

Definition set_delay (e : Entry) (d : N) : Entry :=
  mkEntry (useragents e) (rulelines e) (Some d) (req_rate e).

Definition set_req_rate (e : Entry) (r : N * N) : Entry :=
  mkEntry (useragents e) (rulelines e) (delay e) (Some r).

(** The text of a line before its comment: [line[:i]] when [#] is found at
    [i], the whole line otherwise. *)
Definition uncomment (line : string) : string :=
  match find "#" line with
  | Some i => String.substring 0 i line
  | None => line
  end.

(** The directive of a line: the lowered name before the first colon and
    the stripped text after it, when the line has a colon. *)
Definition directive (line : string) : option (string * string) :=
  match split1 ":" (strip (uncomment line)) with
  | (name, Some value) => Some (lower (strip name), strip value)
  | (_, None) => None
  end.

(** The blank-line step at the top of the loop body of [parse]. *)
Definition blank_step (st : ParseState) : ParseState :=
  if (state st =? 1)%Z then mkParseState 0 Entry_init (self st)
  else if (state st =? 2)%Z then mkParseState 0 Entry_init (_add_entry (self st) (entry st))
  else st.

(** One iteration of the loop of [parse]. *)
Definition parse_line (w : World) (st0 : ParseState) (line : string)
  : outcome ParseState :=
  let st := if truthy line then st0 else blank_step st0 in
  if negb (truthy (strip (uncomment line))) then Return st
  else
    match directive line with
    | None => Return st
    | Some (name, value0) =>
        let value := unquote w value0 in
        if String.eqb name "user-agent" then
          let st1 := if (state st =? 2)%Z
                     then mkParseState (state st) Entry_init (_add_entry (self st) (entry st))
                     else st in
          Return (mkParseState 1 (add_useragent (entry st1) value) (self st1))
        else if String.eqb name "disallow" then
          if negb (state st =? 0)%Z then
            r <- RuleLine_init w value false ;;
            Return (mkParseState 2 (add_ruleline (entry st) r) (self st))
          else Return st
        else if String.eqb name "allow" then
          if negb (state st =? 0)%Z then
            r <- RuleLine_init w value true ;;
            Return (mkParseState 2 (add_ruleline (entry st) r) (self st))
          else Return st
        else if String.eqb name "crawl-delay" then
          if negb (state st =? 0)%Z then
            let e := if isdigit (strip value) then set_delay (entry st) (int value)
                     else entry st in
            Return (mkParseState 2 e (self st))
          else Return st
        else if String.eqb name "request-rate" then
          if negb (state st =? 0)%Z then
            let e := match split "/" value with
                     | [a; b] =>
                         if isdigit (strip a) && isdigit (strip b)
                         then set_req_rate (entry st) (int a, int b)
                         else entry st
                     | _ => entry st
                     end in
            Return (mkParseState 2 e (self st))
          else Return st
        else if String.eqb name "sitemap" then
          Return (mkParseState (state st) (entry st) (add_sitemap (self st) value))
        else Return st
    end.

Fixpoint parse_lines (w : World) (st : ParseState) (lines : list string)
  : outcome ParseState :=
  match lines with
  | [] => Return st
  | line :: rest => st' <- parse_line w st line ;; parse_lines w st' rest
  end.

(** [parse]: the file is stamped with the current time, the lines are
    read, and an entry still open after the last line is added. *)
Definition parse (w : World) (self0 : RobotFileParser) (lines : list string)
  : outcome RobotFileParser :=
  st <- parse_lines w (mkParseState 0 Entry_init (modified w self0)) lines ;;
  Return (if (state st =? 2)%Z then _add_entry (self st) (entry st) else self st).

(** The two loops shared by [can_fetch] and [crawl_delay]: the first
    entry that applies to the agent, then the default entry. *)
Fixpoint first_applying (es : list Entry) (useragent : string) : option Entry :=
  match es with
  | [] => None
  | e :: rest => if Entry_applies_to e useragent then Some e else first_applying rest useragent
  end.

Definition matching_entry (self : RobotFileParser) (useragent : string) : option Entry :=
  match first_applying (entries self) useragent with
  | Some e => Some e
  | None => default_entry self
  end.

(** The path [can_fetch] tests: the URL without scheme and host, quoted,
    and [/] when nothing is left. *)
Definition request_path (w : World) (parsed_url : ParseResult) : string :=
  let url1 := urlunparse w (mkParseResult EmptyString EmptyString (path parsed_url)
                              (params parsed_url) (query parsed_url)
                              (fragment parsed_url)) in
  let url2 := quote w url1 in
  if truthy url2 then url2 else "/".

(** The name of the directive of [line] is [name]. *)
Definition line_has_directive (name line : string) : bool :=
  match directive line with
  | Some (k, _) => String.eqb k name
  | None => false
  end.

Definition can_fetch (w : World) (self : RobotFileParser) (useragent url : string)
  : outcome bool :=
  if disallow_all self then Return false
  else if allow_all self then Return true
  else if (last_checked self =? 0)%Z then Return false
  else
    parsed_url <- urlparse w (unquote w url) ;;
    let url1 := request_path w parsed_url in
    Return (match matching_entry self useragent with
            | Some e => Entry_allowance e url1
            | None => true
            end).

Definition crawl_delay (self : RobotFileParser) (useragent : string) : option N :=
  if (last_checked self =? 0)%Z then None
  else match matching_entry self useragent with
       | Some e => delay e
       | None => None
       end.

(** *** Invariants of the parser, for the proofs *)

(** The three fields [can_fetch] and [crawl_delay] test before they look
    at the entries. *)
Definition flags (rp : RobotFileParser) : bool * bool * Z :=
  (disallow_all rp, allow_all rp, last_checked rp).

(** Every rule line of the entry allows. *)
Definition all_allow (e : Entry) : bool := forallb rl_allowance (rulelines e).

(** Every entry of the file, the default one included, only allows. *)
Definition file_all_allow (rp : RobotFileParser) : Prop :=
  Forall (fun e => all_allow e = true) (entries rp)
  /\ (forall e, default_entry rp = Some e -> all_allow e = true).

Definition state_all_allow (st : ParseState) : Prop :=
  all_allow (entry st) = true /\ file_all_allow (self st).



End RobotParser.

(** ** The application *)

Import PyStr.

(** The dictionary of [get_known_api], in the order of the source. *)
Definition known_apis : list (string * string) :=
  [ ("paperswithcode.com", "https://paperswithcode.com/api/v1/");
    ("github.com", "https://api.github.com/");
    ("openlibrary.org", "https://openlibrary.org/developers/api") ].

(** [d.get(key, None)] on a dictionary given by its items. *)
Fixpoint dict_get (d : list (string * string)) (key : string) : option string :=
  match d with
  | [] => None
  | (k, v) :: rest => if String.eqb k key then Some v else dict_get rest key
  end.

Definition get_known_api (domain : string) : option string :=
  dict_get known_apis domain.

(** The result dictionary of [check_site], one field per key. *)
Record Row : Type := mkRow {
  Website : string;
  Crawling_Allowed : string;
  Sitemap_Found : string;
  Known_API : string;
  Best_Access_Method : string;
  All_Crawling_Methods_Available : string;
  Crawl_Delay : string;
  JS_Heavy_Site : string;
  RSS_Feed_Available : string;
  Allowed_Paths : string;
  Disallowed_Paths : string;
  Advanced_Crawling_Suggestion : string;
  Sitemap_Preview : string;
  Crawlability_Score : Z;
  Suggested_Use : string
}.

(** The dictionary returned on a failed fetch and in the handler; the two
    differ in the text after [No] only. *)
Definition degraded (url reason : string) : Row :=
  mkRow url ("❌ No (" ++ reason ++ ")") "Unknown" "Unknown" "❌ No Access" "Unknown"
        "Unknown" "Unknown" "Unknown" "Unknown" "Unknown"
        "Use headless browser like Playwright or Selenium" "N/A" 0 "🔴 Not Recommended".

(** Truth value of a string or [None]. *)
Definition truthy_opt (o : option string) : bool :=
  match o with
  | Some s => truthy s
  | None => false
  end.

Definition is_some {A : Type} (o : option A) : bool :=
  match o with
  | Some _ => true
  | None => false
  end.

(** Truth value of a list. *)
Definition nonempty {A : Type} (l : list A) : bool :=
  match l with
  | [] => false
  | _ :: _ => true
  end.

Definition sitemap_matches (content : string) : list string :=
  Re.findall Re.sitemap_pattern true content.

Definition sitemap_info (content : string) : option string :=
  if nonempty (sitemap_matches content)
  then Some (join ", " (sitemap_matches content))
  else None.

Definition allowed_paths (content : string) : list string :=
  Re.findall (Re.directive_pattern "Allow:") true content.

Definition disallowed_paths (content : string) : list string :=
  Re.findall (Re.directive_pattern "Disallow:") true content.

Definition rss_found (content : string) : bool :=
  contains "rss" (lower content) || contains "feed" (lower content).

Definition js_keywords : list string :=
  ["webpack"; "window.__INITIAL_STATE__"; "react"; "vue"; "next.js"].

Definition js_heavy (content : string) : bool :=
  existsb (fun k => contains k (lower content)) js_keywords.

Definition methods (crawl_allowed : bool) (sitemap_info api_url : option string)
           (rss_found : bool) : list string :=
  ((if crawl_allowed then ["Normal Crawling"] else [])
   ++ (if truthy_opt sitemap_info then ["Sitemap"] else [])
   ++ (if truthy_opt api_url then ["API"] else [])
   ++ (if rss_found then ["RSS"] else []))%list.

Definition best_method (sitemap_info : option string) (crawl_allowed : bool) : string :=
  if truthy_opt sitemap_info then "📦 Sitemap (Recommended)"
  else if crawl_allowed then "✅ Normal Crawling"
  else "❌ No Access".

Definition tool_suggestion (crawl_allowed js_heavy : bool) : string :=
  if crawl_allowed && negb js_heavy then
    "🟢 Use requests + BeautifulSoup (lightweight & fast)"
  else if js_heavy && crawl_allowed then
    "🟡 Use Playwright, Puppeteer, or Selenium (JS-rendered content)"
  else if negb crawl_allowed then
    "🔴 Crawling blocked. Consider Playwright or Splash (headless browser), or look for public APIs"
  else "⚠️ Fallback: Try headless tools (e.g., Splash, Playwright)".

Definition score (crawl_allowed : bool) (sitemap_info : option string)
           (rss_found : bool) (api_url : option string) (js_heavy : bool) : Z :=
  let score := 0%Z in
  let score := if crawl_allowed then (score + 30)%Z else score in
  let score := if truthy_opt sitemap_info then (score + 30)%Z else score in
  let score := if rss_found then (score + 15)%Z else score in
  let score := if truthy_opt api_url then (score + 15)%Z else score in
  let score := if negb js_heavy then (score + 10)%Z else score in
  score.

Definition project_type (url : string) (api_url sitemap_info : option string) : string :=
  if contains "recipes" url || contains "food" url then "🍲 Recipe Extraction"
  else if contains "news" url || contains "times" url || contains "aljazeera" url then
    "📰 News Aggregator"
  else if contains "jobs" url || contains "career" url || contains "remote" url then
    "💼 Job Crawler"
  else if contains "books" url || contains "openlibrary" url then "📚 Book Recommender"
  else if contains "travel" url || contains "trip" url || contains "expedia" url then
    "🌍 Travel Deals Monitor"
  else if truthy_opt api_url then "📡 API-based Dashboard"
  else if truthy_opt sitemap_info then "🔍 Sitemap-based Indexer"
  else "🧪 Experimental / Headless Only".

(** The body of the inner [try] of the preview, started from the initial
    value ["N/A"] of the variable. *)
Definition sitemap_preview_try (w : World) (sitemap_matches : list string)
  : outcome string :=
  match sitemap_matches with
  | [] => Return "N/A"
  | first :: _ =>
      sm_resp <- requests_get w first 10 ;;
      if (status_code sm_resp =? 200)%Z then
        let urls := Re.findall Re.loc_pattern false (text sm_resp) in
        Return (if nonempty urls then join nl (firstn 5 urls) else "No URLs Found")
      else Return "N/A"
  end.

(** The inner [try] with its bare [except]. *)
Definition sitemap_preview (w : World) (sitemap_matches : list string) : string :=
  match sitemap_preview_try w sitemap_matches with
  | Return s => s
  | Raise _ => "Failed to preview"
  end.

Definition robots_url_of (parsed_url : ParseResult) : string :=
  let base_url := scheme parsed_url ++ "://" ++ netloc parsed_url in
  base_url ++ "/robots.txt".

(** The parser object of the pipeline: created, pointed at the robots URL
    and fed the lines of the body. *)
Definition load_robots (w : World) (robots_url content : string)
  : outcome RobotParser.RobotFileParser :=
  rp0 <- RobotParser.RobotFileParser_init w ;;
  rp1 <- RobotParser.set_url w rp0 robots_url ;;
  RobotParser.parse w rp1 (splitlines content).

(** Truth value of an integer or [None]. *)
Definition truthy_num (o : option N) : bool :=
  match o with
  | Some d => negb (d =? 0)%N
  | None => false
  end.

(** [str(x)] for an integer or [None]. *)
Definition str_num (o : option N) : string :=
  match o with
  | Some d => str_N d
  | None => "None"
  end.

Definition crawl_delay_field (crawl_delay : option N) : string :=
  if truthy_num crawl_delay then str_num crawl_delay ++ " sec" else "Not specified".

(** The dictionary of the final [return], from the locals of the body. *)
Definition full_row (w : World) (url domain content : string)
           (crawl_allowed : bool) (crawl_delay : option N) : Row :=
  let sitemap_matches := sitemap_matches content in
  let sitemap_info := sitemap_info content in
  let allowed_paths := allowed_paths content in
  let disallowed_paths := disallowed_paths content in
  let rss_found := rss_found content in
  let js_heavy := js_heavy content in
  let api_url := get_known_api domain in
  let methods := methods crawl_allowed sitemap_info api_url rss_found in
  let best_method := best_method sitemap_info crawl_allowed in
  let suggestion := tool_suggestion crawl_allowed js_heavy in
  let score := score crawl_allowed sitemap_info rss_found api_url js_heavy in
  let project_type := project_type url api_url sitemap_info in
  let sitemap_preview := sitemap_preview w sitemap_matches in
  mkRow url
        (if crawl_allowed then "✅ Yes" else "❌ No")
        (match sitemap_info with
         | Some s => if truthy s then s else "No sitemap"
         | None => "No sitemap"
         end)
        (match api_url with
         | Some a => if truthy a then a else "None"
         | None => "None"
         end)
        best_method
        (if nonempty methods then join ", " methods else "None")
        (crawl_delay_field crawl_delay)
        (if js_heavy then "🧠 Likely JS-Rendered" else "✅ Mostly HTML")
        (if rss_found then "✅ Yes" else "❌ No")
        (if nonempty allowed_paths then join ", " allowed_paths else "None specified")
        (if nonempty disallowed_paths then join ", " disallowed_paths else "None specified")
        suggestion
        sitemap_preview
        score
        project_type.

(** The body of the outer [try]. *)
Definition check_site_try (w : World) (url user_agent : string) (timeout : Z)
  : outcome Row :=
  parsed_url <- urlparse w (strip url) ;;
  let domain := netloc parsed_url in
  let robots_url := robots_url_of parsed_url in
  response <- requests_get w robots_url timeout ;;
  if negb (status_code response =? 200)%Z then
    Return (degraded url ("HTTP " ++ str_Z (status_code response)))
  else
    let content := text response in
    rp <- load_robots w robots_url content ;;
    crawl_allowed <- RobotParser.can_fetch w rp user_agent url ;;
    let crawl_delay := RobotParser.crawl_delay rp user_agent in
    Return (full_row w url domain content crawl_allowed crawl_delay).

(** [check_site]: the body under [except Exception as e], whose handler
    returns the degraded dictionary with the message of [e]. *)
Definition check_site (w : World) (url user_agent : string) (timeout : Z) : Row :=
  match check_site_try w url user_agent timeout with
  | Return row => row
  | Raise e => degraded url ("Error: " ++ e)
  end.

(** The call of the UI handler, with the default agent and timeout. *)
Definition check_site_default (w : World) (url : string) : Row :=
  check_site w url "*" 5.

(** Some line of the body carries the directive [name], as [parse] reads
    the lines. *)
Definition has_directive (name content : string) : bool :=
  existsb (RobotParser.line_has_directive name) (splitlines content).

(** ** Where an exception can be raised

    [propagates w url user_agent timeout e]: a call of the body of
    [check_site] outside the inner [try] raises [e], so that [e] reaches the
    handler of the outer [try]. *)
Inductive propagates (w : World) (url user_agent : string) (timeout : Z)
  : string -> Prop :=
| raise_urlparse (e : string) :
    urlparse w (strip url) = Raise e ->
    propagates w url user_agent timeout e
| raise_robots_get (parsed_url : ParseResult) (e : string) :
    urlparse w (strip url) = Return parsed_url ->
    requests_get w (robots_url_of parsed_url) timeout = Raise e ->
    propagates w url user_agent timeout e
| raise_load_robots (parsed_url : ParseResult) (content e : string) :
    urlparse w (strip url) = Return parsed_url ->
    requests_get w (robots_url_of parsed_url) timeout = Return (mkResponse 200 content) ->
    load_robots w (robots_url_of parsed_url) content = Raise e ->
    propagates w url user_agent timeout e
| raise_can_fetch (parsed_url : ParseResult) (content : string)
                  (rp : RobotParser.RobotFileParser) (e : string) :
    urlparse w (strip url) = Return parsed_url ->
    requests_get w (robots_url_of parsed_url) timeout = Return (mkResponse 200 content) ->
    load_robots w (robots_url_of parsed_url) content = Return rp ->
    RobotParser.can_fetch w rp user_agent url = Raise e ->
    propagates w url user_agent timeout e.

(** The request of the sitemap preview raises: the body reaches the inner
    [try] and [requests.get] raises there. *)
Definition preview_raises (w : World) (url user_agent : string) (timeout : Z) : Prop :=
  exists parsed_url content rp crawl_allowed e,
    urlparse w (strip url) = Return parsed_url
    /\ requests_get w (robots_url_of parsed_url) timeout = Return (mkResponse 200 content)
    /\ load_robots w (robots_url_of parsed_url) content = Return rp
    /\ RobotParser.can_fetch w rp user_agent url = Return crawl_allowed
    /\ sitemap_preview_try w (sitemap_matches content) = Raise e.

(** Some call of the pipeline raises, wherever it is. *)
Definition raises_anywhere (w : World) (url user_agent : string) (timeout : Z) : Prop :=
  (exists e, propagates w url user_agent timeout e)
  \/ preview_raises w url user_agent timeout.

(** The degraded record: score 0, no access, crawling reported as [No],
    and every optional field unknown. *)
Definition is_degraded (r : Row) : Prop :=
  Crawlability_Score r = 0%Z
  /\ Best_Access_Method r = "❌ No Access"
  /\ String.prefix "❌ No" (Crawling_Allowed r) = true
  /\ Sitemap_Found r = "Unknown"
  /\ Known_API r = "Unknown"
  /\ All_Crawling_Methods_Available r = "Unknown"
  /\ Crawl_Delay r = "Unknown"
  /\ JS_Heavy_Site r = "Unknown"
  /\ RSS_Feed_Available r = "Unknown"
  /\ Allowed_Paths r = "Unknown"
  /\ Disallowed_Paths r = "Unknown".

(** ** The category rules as a table

    The rules of the suggested use in their order: the keywords of a rule
    and its label.  The first rule with a keyword in the URL gives the
    label; without one the known API, then the sitemap, then the fallback
    decide. *)
Definition use_rules : list (list string * string) :=
  [ (["recipes"; "food"], "🍲 Recipe Extraction");
    (["news"; "times"; "aljazeera"], "📰 News Aggregator");
    (["jobs"; "career"; "remote"], "💼 Job Crawler");
    (["books"; "openlibrary"], "📚 Book Recommender");
    (["travel"; "trip"; "expedia"], "🌍 Travel Deals Monitor") ].

Fixpoint first_rule (rules : list (list string * string)) (url : string)
  : option string :=
  match rules with
  | [] => None
  | (keywords, label) :: rest =>
      if existsb (fun k => contains k url) keywords then Some label
      else first_rule rest url
  end.

Definition suggested_use_by_priority (url : string) (api_present sitemap_present : bool)
  : string :=
  match first_rule use_rules url with
  | Some label => label
  | None =>
      if api_present then "📡 API-based Dashboard"
      else if sitemap_present then "🔍 Sitemap-based Indexer"
      else "🧪 Experimental / Headless Only"
  end.

(** ** Worlds for the examples

    A world in which URLs have the shape [scheme://host/path]: [urlparse]
    cuts at [://] and at the first [/] after it and never raises, [quote]
    and [unquote] change nothing, and the network is a function of the URL
    alone. *)

Module Fixture.

(** The text before the first [://] and the text after it. *)
Fixpoint cut_scheme (s : string) : option (string * string) :=
  match s with
  | EmptyString => None
  | String c t =>
      if String.prefix "://" s then Some (EmptyString, String.substring 3 (String.length s) s)
      else match cut_scheme t with
           | Some (a, b) => Some (String c a, b)
           | None => None
           end
  end.

Fixpoint cut_host (s : string) : string * string :=
  match s with
  | EmptyString => (EmptyString, EmptyString)
  | String c t =>
      if Ascii.eqb c "/" then (EmptyString, s)
      else let (h, p) := cut_host t in (String c h, p)
  end.

Definition urlparse (s : string) : outcome ParseResult :=
  match cut_scheme s with
  | Some (sch, rest) =>
      let (h, p) := cut_host rest in
      Return (mkParseResult sch h p EmptyString EmptyString EmptyString)
  | None =>
      Return (mkParseResult EmptyString EmptyString s EmptyString EmptyString EmptyString)
  end.

Definition urlunparse (p : ParseResult) : string :=
  if truthy (netloc p) then scheme p ++ "://" ++ netloc p ++ path p else path p.

Definition world (net : string -> outcome Response) : World :=
  mkWorld urlparse urlunparse (fun s => s) (fun s => s) (fun u _ => net u) 1%positive.

(** A network with one robots file and one sitemap; every other URL
    raises. *)
Definition net2 (robots_url : string) (robots : Response)
           (sitemap_url : string) (sitemap : outcome Response)
           (u : string) : outcome Response :=
  if String.eqb u robots_url then Return robots
  else if String.eqb u sitemap_url then sitemap
  else Raise "connection refused".

(** A site that meets the five conditions of the score: crawling is
    allowed, a sitemap is declared, the body mentions a feed, the domain
    has a known API and no keyword of a script framework occurs. *)
Definition robots_demo : string :=
  "User-agent: *" ++ nl ++ "Crawl-delay: 0" ++ nl ++ "Disallow: /private" ++ nl
  ++ "Sitemap: https://github.com/sm.xml" ++ nl ++ "# rss feed".

Definition sitemap_demo : string :=
  "<urlset><url><loc>https://github.com/a</loc></url></urlset>".

Definition w_demo : World :=
  world (net2 "https://github.com/robots.txt" (mkResponse 200 robots_demo)
              "https://github.com/sm.xml" (Return (mkResponse 200 sitemap_demo))).

Definition url_demo : string := "https://github.com/news".


(** The parser object after [load_robots] on a body, in a world of this
    module. *)
Definition loaded (w : World) (robots_url content : string)
  : RobotParser.RobotFileParser :=
  match load_robots w robots_url content with
  | Return rp => rp
  | Raise _ =>
      RobotParser.mkRobotFileParser [] [] None false false
        EmptyString EmptyString EmptyString 0
  end.



(** A site whose robots file has a group for another agent only, and no
    sitemap; its URL contains both [food] and [news]. *)
Definition robots_plain : string :=
  "User-agent: googlebot" ++ nl ++ "Allow: /".

Definition w_plain : World :=
  world (net2 "https://foodnews.com/robots.txt" (mkResponse 200 robots_plain)
              EmptyString (Raise "no sitemap")).

Definition url_plain : string := "https://foodnews.com/today".


(** A news site without sitemap and without known API. *)
Definition w_news : World :=
  world (net2 "https://daily.example/robots.txt" (mkResponse 200 robots_plain)
              EmptyString (Raise "no sitemap")).

Definition url_news : string := "https://daily.example/news".

Definition rp_news : RobotParser.RobotFileParser :=
  Eval vm_compute in loaded w_news "https://daily.example/robots.txt" robots_plain.

(** A site whose sitemap cannot be fetched: the request raises. *)
Definition robots_sitemap : string :=
  "User-agent: *" ++ nl ++ "Disallow: /private" ++ nl ++ "Sitemap: https://x.com/sm.xml".

Definition w_sitemap_down : World :=
  world (net2 "https://x.com/robots.txt" (mkResponse 200 robots_sitemap)
              "https://x.com/sm.xml" (Raise "connection refused")).

(** The same site with a sitemap URL that answers 404. *)
Definition w_sitemap_404 : World :=
  world (net2 "https://x.com/robots.txt" (mkResponse 200 robots_sitemap)
              "https://x.com/sm.xml" (Return (mkResponse 404 "Not Found"))).

Definition url_x : string := "https://x.com/page".

Definition rp_x : RobotParser.RobotFileParser :=
  Eval vm_compute in loaded w_sitemap_down "https://x.com/robots.txt" robots_sitemap.

(** A site without robots file, and a world whose [urlparse] rejects
    every URL. *)
Definition w_404 : World :=
  world (net2 "https://x.com/robots.txt" (mkResponse 404 "Not Found")
              EmptyString (Raise "no sitemap")).

Definition w_bad_url : World :=
  mkWorld (fun _ => Raise "Invalid IPv6 URL") urlunparse (fun s => s) (fun s => s)
          (fun _ _ => Raise "connection refused") 1%positive.

End Fixture.

(** ** Conditions on the user-agent lines of a body *)

(** The values of the user-agent lines of the body, as [parse] reads them. *)
Definition agent_values (w : World) (content : string) : list string :=
  flat_map (fun line =>
              match RobotParser.directive line with
              | Some (name, value) =>
                  if String.eqb name "user-agent" then [unquote w value] else []
              | None => []
              end)
           (splitlines content).

(** The parser has read no group: it is in its start state and has neither
    entries nor a default entry. *)
Definition nothing_parsed (st : RobotParser.ParseState) : Prop :=
  RobotParser.state st = 0%Z
  /\ RobotParser.entries (RobotParser.self st) = []
  /\ RobotParser.default_entry (RobotParser.self st) = None.

(** The agents of every group the parser holds are among [names]; the
    entries of its list do not name [*], and its default entry does. *)
Definition groups_within (names : list string) (st : RobotParser.ParseState) : Prop :=
  incl (RobotParser.useragents (RobotParser.entry st)) names
  /\ Forall (fun e => incl (RobotParser.useragents e) names
                      /\ RobotParser.has_star (RobotParser.useragents e) = false)
            (RobotParser.entries (RobotParser.self st))
  /\ (forall e, RobotParser.default_entry (RobotParser.self st) = Some e ->
                incl (RobotParser.useragents e) names
                /\ RobotParser.has_star (RobotParser.useragents e) = true).

(** The value of [line], when it is a user-agent line, is among [names]. *)
Definition line_agent_within (w : World) (names : list string) (line : string) : Prop :=
  forall value, RobotParser.directive line = Some ("user-agent", value) ->
                In (unquote w value) names.

(** ** The handler of the button

    The code under [st.button]: the URLs read from the text area, the
    results collected from the pool, and the expressions of the page that
    decide what is shown for a record. *)

Module Handler.

(** [s.replace(old, new)] for a one-character [old]. *)
Fixpoint replace_char (old : ascii) (new s : string) : string :=
  match s with
  | EmptyString => EmptyString
  | String c t =>
      if Ascii.eqb c old then new ++ replace_char old new t
      else String c (replace_char old new t)
  end.

(** [html.escape(s)], with its default [quote=True]: five replacements in
    this order, the ampersand first. *)
Definition escape (s : string) : string :=
  let s := replace_char "&" "&amp;" s in
  let s := replace_char "<" "&lt;" s in
  let s := replace_char ">" "&gt;" s in
  let s := replace_char "034" "&quot;" s in
  let s := replace_char "'" "&#x27;" s in
  s.

(** The list [urls]: the stripped lines of the stripped text that are not
    blank. *)
Definition input_urls (input_text : string) : list string :=
  map strip (filter (fun line => truthy (strip line)) (splitlines (strip input_text))).


(** The background of the score bar. *)
Definition bar_color (score : Z) : string :=
  if (70 <? score)%Z then "#4CAF50"
  else if (40 <? score)%Z then "#FFC107"
  else "#F44336".

(** The text shown for the sitemap preview: commas are replaced by a line
    break tag, then the whole is escaped. *)
Definition shown_preview (row : Row) : string :=
  escape (replace_char "," "<br>" (Sitemap_Preview row)).

(** The escaped fields of the page. *)
Definition shown_sitemap (row : Row) : string := escape (Sitemap_Found row).
Definition shown_disallowed (row : Row) : string := escape (Disallowed_Paths row).
Definition shown_allowed (row : Row) : string := escape (Allowed_Paths row).

End Handler.

(** ** Predicates on texts, for the statements *)

(** Every character of [s] satisfies [p]. *)
Fixpoint forall_chars (p : ascii -> bool) (s : string) : bool :=
  match s with
  | EmptyString => true
  | String c t => p c && forall_chars p t
  end.

(** The number of occurrences of [c] in [s]. *)
Fixpoint count_char (c : ascii) (s : string) : nat :=
  match s with
  | EmptyString => 0
  | String d t => (if Ascii.eqb d c then 1 else 0) + count_char c t
  end.

(** The first and the last character of [s] are whitespace. *)
Definition starts_with_space (s : string) : bool :=
  match s with
  | EmptyString => false
  | String c _ => isspace c
  end.

Fixpoint ends_with_space (s : string) : bool :=
  match s with
  | EmptyString => false
  | String c EmptyString => isspace c
  | String _ t => ends_with_space t
  end.

(** ** More bodies for the examples *)

Module GroupFixture.

(** Rules that stand outside every group. *)
Definition robots_loose : string := "Disallow: /" ++ nl ++ "Crawl-delay: 10".

Definition w_loose : World :=
  Fixture.world (Fixture.net2 "https://x.com/robots.txt" (mkResponse 200 robots_loose)
                              EmptyString (Raise "no sitemap")).

Definition rp_loose : RobotParser.RobotFileParser :=
  Eval vm_compute in Fixture.loaded w_loose "https://x.com/robots.txt" robots_loose.

(** One named crawler is kept out of everything. *)
Definition robots_named : string :=
  "User-agent: Googlebot" ++ nl ++ "Disallow: /" ++ nl ++ "Crawl-delay: 7".

Definition w_named : World :=
  Fixture.world (Fixture.net2 "https://x.com/robots.txt" (mkResponse 200 robots_named)
                              EmptyString (Raise "no sitemap")).

Definition rp_named : RobotParser.RobotFileParser :=
  Eval vm_compute in Fixture.loaded w_named "https://x.com/robots.txt" robots_named.

(** The usual way to allow everything: a [Disallow] line without value. *)
Definition robots_open : string :=
  "User-agent: *" ++ nl ++ "Disallow:" ++ nl ++ "Allow: /public".

Definition w_open : World :=
  Fixture.world (Fixture.net2 "https://x.com/robots.txt" (mkResponse 200 robots_open)
                              EmptyString (Raise "no sitemap")).

Definition rp_open : RobotParser.RobotFileParser :=
  Eval vm_compute in Fixture.loaded w_open "https://x.com/robots.txt" robots_open.

End GroupFixture.

(** The value of [line], when it is a [Disallow] line, is empty. *)
Definition line_disallow_empty (w : World) (line : string) : Prop :=
  forall value, RobotParser.directive line = Some ("disallow", value) ->
                unquote w value = EmptyString.

(** * Properties *)

(** ** Strings and patterns *)

Lemma truthy_app_l (a b : string) : truthy a = true -> truthy (a ++ b) = true.
Proof. destruct a; simpl; [discriminate | reflexivity]. Qed.

Lemma truthy_join_head (sep g : string) (rest : list string) :
  truthy g = true -> truthy (join sep (g :: rest)) = true.
Proof.
  intros Hg. unfold join. simpl. destruct rest as [| h rest'].
  - exact Hg.
  - apply truthy_app_l. exact Hg.
Qed.

Lemma isspace_LF : isspace LF = true.
Proof. reflexivity. Qed.

Lemma not_space_not_LF (c : ascii) : isspace c = false -> Ascii.eqb c LF = false.
Proof.
  intros Hc. destruct (Ascii.eqb_spec c LF) as [-> |]; [| reflexivity].
  rewrite isspace_LF in Hc. discriminate.
Qed.

Lemma dot_run_head (c : ascii) (t : string) :
  Ascii.eqb c LF = false -> truthy (Re.dot_run (String c t)) = true.
Proof. intros Hc. simpl. rewrite Hc. reflexivity. Qed.

(** The group of [\s*(.+)] is never empty. *)
Lemma ws_dotplus_truthy (s g : string) (n : nat) :
  Re.ws_dotplus s = Some (g, n) -> truthy g = true.
Proof.
  revert g n. induction s as [| c t IH]; intros g n H; simpl in H.
  - discriminate.
  - destruct (isspace c) eqn:Hsp.
    + destruct (Re.ws_dotplus t) as [[g' n'] |] eqn:Hrec.
      * inversion H; subst. eapply IH. reflexivity.
      * destruct (Ascii.eqb c LF) eqn:Hlf; [discriminate |].
        inversion H; subst. reflexivity.
    + inversion H; subst. apply dot_run_head. apply not_space_not_LF. exact Hsp.
Qed.

Lemma sitemap_pattern_truthy (s g : string) (n : nat) :
  Re.sitemap_pattern s = Some (g, n) -> truthy g = true.
Proof.
  unfold Re.sitemap_pattern. intros H.
  destruct (Re.strip_prefix true "Sitemap:" s) as [r |]; [| discriminate].
  destruct (Re.ws_dotplus r) as [[g' n'] |] eqn:Hws; [| discriminate].
  inversion H; subst. eapply ws_dotplus_truthy. exact Hws.
Qed.

(** Whatever holds of every group a pattern can return holds of every
    element of the list [findall] builds. *)
Lemma findall_go_Forall (P : string -> Prop) (m : string -> option (string * nat))
      (bol_only : bool) :
  (forall s g n, m s = Some (g, n) -> P g) ->
  forall s skip bol, Forall P (Re.findall_go m bol_only skip bol s).
Proof.
  intros Hm. induction s as [| c t IH]; intros skip bol; simpl.
  - constructor.
  - destruct skip as [| k]; [| apply IH].
    destruct (negb bol_only || bol); [| apply IH].
    destruct (m (String c t)) as [[g n] |] eqn:Hmatch; [| apply IH].
    constructor; [eapply Hm; exact Hmatch | apply IH].
Qed.

Lemma sitemap_matches_truthy (content : string) :
  Forall (fun g => truthy g = true) (sitemap_matches content).
Proof.
  unfold sitemap_matches, Re.findall. apply findall_go_Forall.
  intros s g n H. eapply sitemap_pattern_truthy. exact H.
Qed.

(** [sitemap_info] is true exactly when the list of matches is not empty:
    every match has at least one character, and so has their join. *)
Lemma sitemap_info_truthy (content : string) :
  truthy_opt (sitemap_info content) = nonempty (sitemap_matches content).
Proof.
  unfold sitemap_info. pose proof (sitemap_matches_truthy content) as Hall.
  destruct (sitemap_matches content) as [| g rest]; [reflexivity |].
  cbn [nonempty truthy_opt]. apply truthy_join_head. inversion Hall; assumption.
Qed.

(** The values of the table: one of three non-empty strings, or nothing. *)
Lemma get_known_api_cases (domain : string) :
  (domain = "paperswithcode.com" /\
   get_known_api domain = Some "https://paperswithcode.com/api/v1/")
  \/ (domain = "github.com" /\ get_known_api domain = Some "https://api.github.com/")
  \/ (domain = "openlibrary.org" /\
      get_known_api domain = Some "https://openlibrary.org/developers/api")
  \/ (domain <> "paperswithcode.com" /\ domain <> "github.com" /\
      domain <> "openlibrary.org" /\ get_known_api domain = None).
Proof.
  unfold get_known_api, known_apis, dict_get.
  destruct (String.eqb_spec "paperswithcode.com" domain) as [E1 | N1];
    [left; split; [symmetry; exact E1 | reflexivity] |].
  destruct (String.eqb_spec "github.com" domain) as [E2 | N2];
    [right; left; split; [symmetry; exact E2 | reflexivity] |].
  destruct (String.eqb_spec "openlibrary.org" domain) as [E3 | N3];
    [right; right; left; split; [symmetry; exact E3 | reflexivity] |].
  right; right; right. repeat split; congruence.
Qed.

Lemma api_url_truthy (domain : string) :
  truthy_opt (get_known_api domain) = is_some (get_known_api domain).
Proof.
  destruct (get_known_api_cases domain) as [[_ H] | [[_ H] | [[_ H] | [_ [_ [_ H]]]]]];
    rewrite H; reflexivity.
Qed.

(** ** The robots parser *)

Module RobotParserFacts.
Import RobotParser.

Lemma flags__add_entry (rp : RobotFileParser) (e : Entry) :
  flags (_add_entry rp e) = flags rp.
Proof.
  unfold _add_entry. destruct (has_star (useragents e)); [| reflexivity].
  destruct (default_entry rp); reflexivity.
Qed.

Lemma flags_blank_step (st : ParseState) :
  flags (self (blank_step st)) = flags (self st).
Proof.
  unfold blank_step. destruct (state st =? 1)%Z; [reflexivity |].
  destruct (state st =? 2)%Z; [apply flags__add_entry | reflexivity].
Qed.

Ltac outcome_cases :=
  repeat match goal with
    | H : Return _ = Return _ |- _ => inversion H; subst; clear H
    | H : Raise _ = Return _ |- _ => discriminate H
    | H : bind ?m _ = Return _ |- _ =>
        let E := fresh "E" in destruct m eqn:E; simpl in H
    | H : (if ?b then _ else _) = Return _ |- _ =>
        let E := fresh "E" in destruct b eqn:E
    | H : match ?o with Some _ => _ | None => _ end = Return _ |- _ =>
        let E := fresh "E" in destruct o eqn:E
    | H : (let (_, _) := ?p in _) = Return _ |- _ =>
        let E := fresh "E" in destruct p eqn:E
    end.

Lemma flags_parse_line (w : World) (st st' : ParseState) (line : string) :
  parse_line w st line = Return st' -> flags (self st') = flags (self st).
Proof.
  unfold parse_line. intros H.
  assert (Hst : flags (self (if truthy line then st else blank_step st))
                = flags (self st))
    by (destruct (truthy line); [reflexivity | apply flags_blank_step]).
  revert H Hst. generalize (if truthy line then st else blank_step st) as st1.
  intros st1 H Hst. rewrite <- Hst. clear Hst.
  outcome_cases;
    repeat match goal with
      | |- context [if ?b then _ else _] => destruct b
      end;
    cbn [self]; try reflexivity; apply flags__add_entry.
Qed.

Lemma flags_parse_lines (w : World) (lines : list string) :
  forall st st', parse_lines w st lines = Return st' ->
                 flags (self st') = flags (self st).
Proof.
  induction lines as [| line rest IH]; intros st st' H; simpl in H.
  - inversion H. reflexivity.
  - destruct (parse_line w st line) as [st1 |] eqn:E; simpl in H; [| discriminate].
    rewrite (IH _ _ H). eapply flags_parse_line. exact E.
Qed.

Lemma flags_parse (w : World) (rp0 rp : RobotFileParser) (lines : list string) :
  parse w rp0 lines = Return rp ->
  flags rp = (disallow_all rp0, allow_all rp0, Z.pos (time_time w)).
Proof.
  unfold parse. intros H.
  destruct (parse_lines w _ lines) as [st |] eqn:E; simpl in H; [| discriminate].
  inversion H; subst; clear H.
  apply flags_parse_lines in E. cbn [self] in E.
  destruct (state st =? 2)%Z; [rewrite flags__add_entry |]; rewrite E; reflexivity.
Qed.

Lemma flags_set_url (w : World) (rp0 rp : RobotFileParser) (url : string) :
  set_url w rp0 url = Return rp -> flags rp = flags rp0.
Proof. unfold set_url. intros H. outcome_cases. reflexivity. Qed.

Lemma flags_init (w : World) (rp : RobotFileParser) :
  RobotFileParser_init w = Return rp -> flags rp = (false, false, 0%Z).
Proof.
  unfold RobotFileParser_init. intros H. outcome_cases.
  match goal with E : set_url _ _ _ = Return _ |- _ => apply flags_set_url in E end.
  unfold flags in *. cbn in *. congruence.
Qed.

End RobotParserFacts.

(** After [load_robots] the file is stamped, and neither of the two
    overriding flags, which only [read] sets, is raised. *)
Lemma load_robots_flags (w : World) (robots_url content : string)
      (rp : RobotParser.RobotFileParser) :
  load_robots w robots_url content = Return rp ->
  RobotParser.disallow_all rp = false
  /\ RobotParser.allow_all rp = false
  /\ RobotParser.last_checked rp = Z.pos (time_time w).
Proof.
  unfold load_robots. intros H.
  destruct (RobotParser.RobotFileParser_init w) as [rp0 |] eqn:E0; simpl in H;
    [| discriminate].
  destruct (RobotParser.set_url w rp0 robots_url) as [rp1 |] eqn:E1; simpl in H;
    [| discriminate].
  apply RobotParserFacts.flags_init in E0.
  apply RobotParserFacts.flags_set_url in E1.
  apply RobotParserFacts.flags_parse in H.
  unfold RobotParser.flags in *.
  inversion E0 as [[Hd0 Ha0 Hl0]]. inversion E1 as [[Hd1 Ha1 Hl1]].
  inversion H as [[Hd Ha Hl]].
  repeat split; congruence.
Qed.

(** *** A file without [Disallow] lines only allows *)

Module AllowOnly.
Import RobotParser.

Lemma RuleLine_init_allow (w : World) (p : string) (r : RuleLine) :
  RuleLine_init w p true = Return r -> rl_allowance r = true.
Proof.
  unfold RuleLine_init. intros H.
  destruct (urlparse w p); simpl in H; [| discriminate].
  inversion H; subst. cbn. destruct (String.eqb p EmptyString); reflexivity.
Qed.

Lemma all_allow_add_ruleline (e : Entry) (r : RuleLine) :
  all_allow e = true -> rl_allowance r = true -> all_allow (add_ruleline e r) = true.
Proof.
  unfold all_allow, add_ruleline. cbn [rulelines]. intros He Hr.
  rewrite forallb_app, He. cbn. rewrite Hr. reflexivity.
Qed.

Lemma file_all_allow__add_entry (rp : RobotFileParser) (e : Entry) :
  file_all_allow rp -> all_allow e = true -> file_all_allow (_add_entry rp e).
Proof.
  intros [Hes Hd] He. unfold _add_entry.
  destruct (has_star (useragents e)).
  - destruct (default_entry rp) eqn:Hdef.
    + split; [exact Hes |]. intros e1 H1. rewrite Hdef in H1. apply Hd. exact H1.
    + split; [exact Hes |]. cbn. intros e' He'. inversion He'; subst. exact He.
  - split; [| exact Hd]. cbn. apply Forall_app. split; [exact Hes |].
    constructor; [exact He | constructor].
Qed.

Lemma state_all_allow_blank_step (st : ParseState) :
  state_all_allow st -> state_all_allow (blank_step st).
Proof.
  intros [He Hf]. unfold blank_step.
  destruct (state st =? 1)%Z; [split; [reflexivity | exact Hf] |].
  destruct (state st =? 2)%Z; [| split; assumption].
  split; [reflexivity |]. apply file_all_allow__add_entry; assumption.
Qed.

Lemma state_all_allow_parse_line (w : World) (st st' : ParseState) (line : string) :
  line_has_directive "disallow" line = false ->
  parse_line w st line = Return st' ->
  state_all_allow st -> state_all_allow st'.
Proof.
  unfold parse_line, line_has_directive. intros Hno H Hst.
  assert (Hst1 : state_all_allow (if truthy line then st else blank_step st))
    by (destruct (truthy line); [exact Hst | apply state_all_allow_blank_step; exact Hst]).
  revert H Hst1. generalize (if truthy line then st else blank_step st) as st1.
  clear st Hst. intros st1 H [He Hf].
  destruct (negb (truthy (strip (uncomment line)))); [inversion H; subst; split; assumption |].
  destruct (directive line) as [[name value] |]; [| inversion H; subst; split; assumption].
  destruct (String.eqb name "user-agent").
  { inversion H; subst; clear H. destruct (state st1 =? 2)%Z; cbn.
    - split; [reflexivity |]. apply file_all_allow__add_entry; assumption.
    - split; [exact He | exact Hf]. }
  rewrite Hno in H.
  destruct (String.eqb name "allow").
  { destruct (negb (state st1 =? 0)%Z); [| inversion H; subst; split; assumption].
    destruct (RuleLine_init w (unquote w value) true) as [r |] eqn:Hr; simpl in H;
      [| discriminate].
    inversion H; subst; clear H. split; [| exact Hf]. cbn.
    apply all_allow_add_ruleline; [exact He |].
    eapply RuleLine_init_allow. exact Hr. }
  destruct (String.eqb name "crawl-delay").
  { destruct (negb (state st1 =? 0)%Z); [| inversion H; subst; split; assumption].
    inversion H; subst; clear H. split; [| exact Hf]. cbn.
    destruct (isdigit (strip (unquote w value))); exact He. }
  destruct (String.eqb name "request-rate").
  { destruct (negb (state st1 =? 0)%Z); [| inversion H; subst; split; assumption].
    inversion H; subst; clear H. split; [| exact Hf]. cbn.
    destruct (split "/" (unquote w value)) as [| a [| b [| c l]]]; try exact He.
    destruct (isdigit (strip a) && isdigit (strip b)); exact He. }
  destruct (String.eqb name "sitemap"); inversion H; subst; clear H;
    split; assumption.
Qed.

Lemma state_all_allow_parse_lines (w : World) (lines : list string) :
  existsb (line_has_directive "disallow") lines = false ->
  forall st st', parse_lines w st lines = Return st' ->
                 state_all_allow st -> state_all_allow st'.
Proof.
  induction lines as [| line rest IH]; intros Hno st st' H Hst; simpl in H.
  - inversion H; subst. exact Hst.
  - simpl in Hno. apply orb_false_iff in Hno. destruct Hno as [Hline Hrest].
    destruct (parse_line w st line) as [st1 |] eqn:E; simpl in H; [| discriminate].
    eapply IH; [exact Hrest | exact H |].
    eapply state_all_allow_parse_line; eassumption.
Qed.

Lemma file_all_allow_parse (w : World) (rp0 rp : RobotFileParser) (lines : list string) :
  existsb (line_has_directive "disallow") lines = false ->
  file_all_allow rp0 ->
  parse w rp0 lines = Return rp -> file_all_allow rp.
Proof.
  unfold parse. intros Hno H0 H.
  destruct (parse_lines w _ lines) as [st |] eqn:E; simpl in H; [| discriminate].
  inversion H; subst; clear H.
  assert (Hst : state_all_allow st).
  { eapply state_all_allow_parse_lines; [exact Hno | exact E |].
    split; [reflexivity | exact H0]. }
  destruct Hst as [He Hf].
  destruct (state st =? 2)%Z; [apply file_all_allow__add_entry; assumption | exact Hf].
Qed.

Lemma first_applying_In (es : list Entry) (ua : string) (e : Entry) :
  first_applying es ua = Some e -> In e es.
Proof.
  induction es as [| e0 rest IH]; simpl; [discriminate |].
  destruct (Entry_applies_to e0 ua); intros H.
  - inversion H; subst. left. reflexivity.
  - right. apply IH. exact H.
Qed.

Lemma matching_entry_all_allow (rp : RobotFileParser) (ua : string) (e : Entry) :
  file_all_allow rp -> matching_entry rp ua = Some e -> all_allow e = true.
Proof.
  intros [Hes Hd]. unfold matching_entry.
  destruct (first_applying (entries rp) ua) as [e0 |] eqn:E.
  - intros H. inversion H; subst. apply first_applying_In in E.
    rewrite Forall_forall in Hes. apply Hes. exact E.
  - apply Hd.
Qed.

Lemma lines_allowance_all_allow (rules : list RuleLine) (filename : string) :
  forallb rl_allowance rules = true -> lines_allowance rules filename = true.
Proof.
  induction rules as [| r rest IH]; simpl; [reflexivity |].
  intros H. apply andb_true_iff in H. destruct H as [Hr Hrest].
  destruct (RuleLine_applies_to r filename); [exact Hr | apply IH; exact Hrest].
Qed.

End AllowOnly.

Lemma load_robots_all_allow (w : World) (robots_url content : string)
      (rp : RobotParser.RobotFileParser) :
  has_directive "disallow" content = false ->
  load_robots w robots_url content = Return rp ->
  RobotParser.file_all_allow rp.
Proof.
  unfold load_robots, has_directive. intros Hno H.
  destruct (RobotParser.RobotFileParser_init w) as [rp0 |] eqn:E0; simpl in H;
    [| discriminate].
  destruct (RobotParser.set_url w rp0 robots_url) as [rp1 |] eqn:E1; simpl in H;
    [| discriminate].
  eapply AllowOnly.file_all_allow_parse; [exact Hno | | exact H].
  unfold RobotParser.RobotFileParser_init, RobotParser.set_url in E0, E1.
  destruct (urlparse w EmptyString) as [p0 |]; simpl in E0; [| discriminate].
  destruct (urlparse w robots_url) as [p1 |]; simpl in E1; [| discriminate].
  inversion E0; subst; clear E0. inversion E1; subst; clear E1.
  split; cbn; [constructor | discriminate].
Qed.

(** What [can_fetch] returns for a loaded file and a request URL that
    [urlparse] accepts: the verdict of the matching entry, and [True] when
    no entry matches. *)
Lemma can_fetch_loaded (w : World) (robots_url content : string)
      (rp : RobotParser.RobotFileParser) (useragent url : string)
      (parsed : ParseResult) :
  load_robots w robots_url content = Return rp ->
  urlparse w (unquote w url) = Return parsed ->
  RobotParser.can_fetch w rp useragent url
  = Return (match RobotParser.matching_entry rp useragent with
            | Some e => RobotParser.Entry_allowance e (RobotParser.request_path w parsed)
            | None => true
            end).
Proof.
  intros Hload Hurl. apply load_robots_flags in Hload.
  destruct Hload as [Hd [Ha Hl]]. unfold RobotParser.can_fetch.
  rewrite Hd, Ha, Hl, Hurl. reflexivity.
Qed.

Lemma crawl_delay_loaded (w : World) (robots_url content : string)
      (rp : RobotParser.RobotFileParser) (useragent : string) :
  load_robots w robots_url content = Return rp ->
  RobotParser.crawl_delay rp useragent
  = match RobotParser.matching_entry rp useragent with
    | Some e => RobotParser.delay e
    | None => None
    end.
Proof.
  intros Hload. apply load_robots_flags in Hload.
  destruct Hload as [_ [_ Hl]]. unfold RobotParser.crawl_delay.
  rewrite Hl. reflexivity.
Qed.


Lemma can_fetch_no_disallow (w : World) (robots_url content : string)
      (rp : RobotParser.RobotFileParser) (useragent url : string)
      (parsed : ParseResult) :
  load_robots w robots_url content = Return rp ->
  urlparse w (unquote w url) = Return parsed ->
  has_directive "disallow" content = false ->
  RobotParser.can_fetch w rp useragent url = Return true.
Proof.
  intros Hload Hurl Hno.
  rewrite (can_fetch_loaded _ _ _ _ _ _ _ Hload Hurl).
  destruct (RobotParser.matching_entry rp useragent) as [e |] eqn:E; [| reflexivity].
  f_equal. apply AllowOnly.lines_allowance_all_allow.
  eapply AllowOnly.matching_entry_all_allow; [| exact E].
  eapply load_robots_all_allow; eassumption.
Qed.



(** *** A file without [Crawl-delay] lines declares no delay *)

Module NoDelay.
Import RobotParser.







End NoDelay.


(** ** The pipeline on a fetched robots file *)

Section SuccessPath.

Variables (w : World) (url user_agent : string) (timeout : Z).
Variables (parsed_url : ParseResult) (content : string).
Variables (rp : RobotParser.RobotFileParser) (crawl_allowed : bool).

(** The URL is parsed, the robots file is fetched with status 200, the
    parser accepts it and answers the permission query. *)
Hypothesis Hurl : urlparse w (strip url) = Return parsed_url.
Hypothesis Hget :
  requests_get w (robots_url_of parsed_url) timeout = Return (mkResponse 200 content).
Hypothesis Hload : load_robots w (robots_url_of parsed_url) content = Return rp.
Hypothesis Hfetch : RobotParser.can_fetch w rp user_agent url = Return crawl_allowed.

Lemma check_site_full_row :
  check_site w url user_agent timeout
  = full_row w url (netloc parsed_url) content crawl_allowed
             (RobotParser.crawl_delay rp user_agent).
Proof.
  unfold check_site, check_site_try.
  rewrite Hurl. cbn [bind]. rewrite Hget. cbn [bind status_code text].
  cbn [Z.eqb Pos.eqb negb]. rewrite Hload. cbn [bind]. rewrite Hfetch. reflexivity.
Qed.




(** C8, as amended.  The suggested use is the label of the first rule, in
    the order recipes or food, news or times or aljazeera, jobs or career or
    remote, books or openlibrary, travel or trip or expedia, whose keyword
    occurs in the URL as written; then the known API, the sitemap and the
    fallback decide.  A URL that contains [news] and neither [recipes] nor
    [food], with no known API and no sitemap, is a news aggregator. *)
Theorem suggested_use_priority :
  Suggested_Use (check_site w url user_agent timeout)
  = suggested_use_by_priority url (is_some (get_known_api (netloc parsed_url)))
                              (nonempty (sitemap_matches content))
  /\ (contains "news" url = true ->
      contains "recipes" url = false ->
      contains "food" url = false ->
      get_known_api (netloc parsed_url) = None ->
      sitemap_matches content = [] ->
      Suggested_Use (check_site w url user_agent timeout) = "📰 News Aggregator").
Proof.
  rewrite check_site_full_row. cbn [Suggested_Use full_row].
  unfold project_type, suggested_use_by_priority, use_rules, first_rule, existsb.
  rewrite sitemap_info_truthy, api_url_truthy. split.
  - repeat (match goal with
            | |- context [contains ?k url] => destruct (contains k url)
            end; cbn [orb]; try reflexivity).
  - intros Hnews Hrecipes Hfood _ _. rewrite Hrecipes, Hfood, Hnews. reflexivity.
Qed.

End SuccessPath.




(** C8 as stated fails on a URL that contains [news] after [food]: the
    site has no known API and no sitemap, and the category is the recipe
    one. *)
Lemma news_url_with_food_is_recipe :
  contains "news" Fixture.url_plain = true
  /\ get_known_api "foodnews.com" = None
  /\ sitemap_matches Fixture.robots_plain = []
  /\ Suggested_Use (check_site_default Fixture.w_plain Fixture.url_plain)
     = "🍲 Recipe Extraction"
  /\ Suggested_Use (check_site_default Fixture.w_plain Fixture.url_plain)
     <> "📰 News Aggregator".
Proof.
  repeat split; try reflexivity. vm_compute. discriminate.
Qed.

(** [suggested_use_priority] on a news URL without [food] or [recipes]. *)
Lemma suggested_use_priority_witness :
  urlparse Fixture.w_news (strip Fixture.url_news)
  = Return (mkParseResult "https" "daily.example" "/news" EmptyString EmptyString EmptyString)
  /\ contains "news" Fixture.url_news = true
  /\ contains "recipes" Fixture.url_news = false
  /\ contains "food" Fixture.url_news = false
  /\ get_known_api "daily.example" = None
  /\ sitemap_matches Fixture.robots_plain = []
  /\ Suggested_Use (check_site Fixture.w_news Fixture.url_news "*" 5)
     = "📰 News Aggregator".
Proof.
  repeat (split; [reflexivity |]).
  refine (proj2 (suggested_use_priority Fixture.w_news Fixture.url_news "*" 5
                   (mkParseResult "https" "daily.example" "/news" EmptyString EmptyString EmptyString)
                   Fixture.robots_plain Fixture.rp_news true _ _ _ _) _ _ _ _ _);
    reflexivity.
Defined.

(** ** The boundary of the pipeline *)

Lemma degraded_is_degraded (url reason : string) : is_degraded (degraded url reason).
Proof. repeat split. Qed.

(** The body of the outer [try] raises exactly where [propagates] says. *)
Lemma check_site_try_raises (w : World) (url user_agent : string) (timeout : Z)
      (e : string) :
  check_site_try w url user_agent timeout = Raise e
  <-> propagates w url user_agent timeout e.
Proof.
  unfold check_site_try. split.
  - intros H.
    destruct (urlparse w (strip url)) as [p |] eqn:E1; simpl in H;
      [| inversion H; subst; apply raise_urlparse; exact E1].
    destruct (requests_get w (robots_url_of p) timeout) as [[st body] |] eqn:E2;
      simpl in H; [| inversion H; subst; eapply raise_robots_get; eassumption].
    destruct (Z.eqb_spec st 200) as [-> | Hst]; simpl in H; [| discriminate].
    destruct (load_robots w (robots_url_of p) body) as [rp |] eqn:E3; simpl in H;
      [| inversion H; subst; eapply raise_load_robots; eassumption].
    destruct (RobotParser.can_fetch w rp user_agent url) as [ca |] eqn:E4; simpl in H;
      [discriminate |].
    inversion H; subst. eapply raise_can_fetch; eassumption.
  - intros H. destruct H as [e H1 | p e H1 H2 | p body e H1 H2 H3 | p body rp e H1 H2 H3 H4].
    + rewrite H1. reflexivity.
    + rewrite H1. cbn [bind]. rewrite H2. reflexivity.
    + rewrite H1. cbn [bind]. rewrite H2. cbn [bind status_code text Z.eqb Pos.eqb negb].
      rewrite H3. reflexivity.
    + rewrite H1. cbn [bind]. rewrite H2. cbn [bind status_code text Z.eqb Pos.eqb negb].
      rewrite H3. cbn [bind]. rewrite H4. reflexivity.
Qed.

(** [check_site] always returns a record, and it is either the degraded
    one or the full one of a completed analysis. *)
Lemma check_site_cases (w : World) (url user_agent : string) (timeout : Z) :
  (exists reason, check_site w url user_agent timeout = degraded url reason)
  \/ (exists domain content crawl_allowed crawl_delay,
        check_site w url user_agent timeout
        = full_row w url domain content crawl_allowed crawl_delay).
Proof.
  unfold check_site, check_site_try.
  destruct (urlparse w (strip url)) as [p |]; cbn [bind]; [| left; eexists; reflexivity].
  destruct (requests_get w (robots_url_of p) timeout) as [[st body] |]; cbn [bind];
    [| left; eexists; reflexivity].
  destruct (negb (status_code (mkResponse st body) =? 200)%Z);
    [left; eexists; reflexivity |].
  destruct (load_robots w (robots_url_of p) (text (mkResponse st body))) as [rp |];
    cbn [bind]; [| left; eexists; reflexivity].
  destruct (RobotParser.can_fetch w rp user_agent url) as [ca |]; cbn [bind];
    [| left; eexists; reflexivity].
  right. do 4 eexists. reflexivity.
Qed.

(** When the request of the sitemap preview raises, the inner handler
    sets the preview to its failure text. *)
Lemma sitemap_preview_raise (w : World) (first : string) (rest : list string)
      (e : string) :
  requests_get w first 10 = Raise e ->
  sitemap_preview w (first :: rest) = "Failed to preview".
Proof.
  intros H. unfold sitemap_preview, sitemap_preview_try. rewrite H. reflexivity.
Qed.

(** C2, as amended.  [check_site] returns a record for every URL.  When the
    robots fetch answers with a status other than 200, or when a call
    outside the sitemap preview raises (the parsing of the URL, the robots
    fetch, the robots parser or the permission query), the record is the
    degraded one: score 0, no access, crawling reported as [No] with the
    status or the message, and every optional field unknown.  An exception
    of the request of the sitemap preview is caught by the handler of the
    preview: the record is the full one, with the preview marked failed. *)
Theorem check_site_degraded (w : World) (url user_agent : string) (timeout : Z) :
  (forall parsed_url response,
      urlparse w (strip url) = Return parsed_url ->
      requests_get w (robots_url_of parsed_url) timeout = Return response ->
      status_code response <> 200%Z ->
      check_site w url user_agent timeout
      = degraded url ("HTTP " ++ str_Z (status_code response)))
  /\ (forall e,
         propagates w url user_agent timeout e ->
         check_site w url user_agent timeout = degraded url ("Error: " ++ e))
  /\ (forall reason, is_degraded (degraded url reason))
  /\ (forall parsed_url content rp crawl_allowed first rest e,
         urlparse w (strip url) = Return parsed_url ->
         requests_get w (robots_url_of parsed_url) timeout
         = Return (mkResponse 200 content) ->
         load_robots w (robots_url_of parsed_url) content = Return rp ->
         RobotParser.can_fetch w rp user_agent url = Return crawl_allowed ->
         sitemap_matches content = first :: rest ->
         requests_get w first 10 = Raise e ->
         check_site w url user_agent timeout
         = full_row w url (netloc parsed_url) content crawl_allowed
                    (RobotParser.crawl_delay rp user_agent)
         /\ Sitemap_Preview (check_site w url user_agent timeout) = "Failed to preview").
Proof.
  split; [| split; [| split]].
  - intros p response H1 H2 Hst. unfold check_site, check_site_try.
    rewrite H1. cbn [bind]. rewrite H2. cbn [bind].
    destruct (Z.eqb_spec (status_code response) 200) as [E | _]; [contradiction |].
    reflexivity.
  - intros e H. apply check_site_try_raises in H. unfold check_site. rewrite H.
    reflexivity.
  - intros reason. apply degraded_is_degraded.
  - intros p content rp ca first rest e H1 H2 H3 H4 Hm He.
    rewrite (check_site_full_row w url user_agent timeout p content rp ca H1 H2 H3 H4).
    split; [reflexivity |]. cbn [Sitemap_Preview full_row]. rewrite Hm.
    eapply sitemap_preview_raise. exact He.
Qed.

(** [check_site_degraded] on a site without robots file and in a world
    whose [urlparse] raises. *)
Lemma check_site_degraded_witness :
  check_site Fixture.w_404 Fixture.url_x "*" 5 = degraded Fixture.url_x "HTTP 404"
  /\ check_site Fixture.w_bad_url Fixture.url_x "*" 5
     = degraded Fixture.url_x "Error: Invalid IPv6 URL"
  /\ is_degraded (check_site Fixture.w_404 Fixture.url_x "*" 5).
Proof.
  split; [| split].
  - refine (proj1 (check_site_degraded Fixture.w_404 Fixture.url_x "*" 5)
              (mkParseResult "https" "x.com" "/page" EmptyString EmptyString EmptyString)
              (mkResponse 404 "Not Found") _ _ _);
      [reflexivity | reflexivity | discriminate].
  - refine (proj1 (proj2 (check_site_degraded Fixture.w_bad_url Fixture.url_x "*" 5))
              "Invalid IPv6 URL" _).
    apply raise_urlparse. reflexivity.
  - exact (proj1 (proj2 (proj2 (check_site_degraded Fixture.w_404 Fixture.url_x "*" 5)))
             "HTTP 404").
Defined.

(** C2 as stated fails when the exception is raised by the request of the
    sitemap preview: the inner handler catches it, and the record is the
    full one, with a score of 70 here. *)
Lemma sitemap_exception_not_degraded :
  raises_anywhere Fixture.w_sitemap_down Fixture.url_x "*" 5
  /\ Crawlability_Score (check_site Fixture.w_sitemap_down Fixture.url_x "*" 5) = 70%Z
  /\ Sitemap_Preview (check_site Fixture.w_sitemap_down Fixture.url_x "*" 5)
     = "Failed to preview"
  /\ ~ is_degraded (check_site Fixture.w_sitemap_down Fixture.url_x "*" 5).
Proof.
  split; [| split; [| split]].
  - right. exists (mkParseResult "https" "x.com" "/page" EmptyString EmptyString EmptyString).
    exists Fixture.robots_sitemap, Fixture.rp_x, true, "connection refused".
    repeat split; reflexivity.
  - reflexivity.
  - reflexivity.
  - intros [Hscore _]. vm_compute in Hscore. discriminate Hscore.
Qed.

(** ** The lists read from the robots body *)

(** The best method looks at the sitemap first and at the permission only
    when there is none. *)
Lemma best_method_cases (content : string) (crawl_allowed : bool) :
  best_method (sitemap_info content) crawl_allowed
  = if nonempty (sitemap_matches content) then "📦 Sitemap (Recommended)"
    else if crawl_allowed then "✅ Normal Crawling"
    else "❌ No Access".
Proof. unfold best_method. rewrite sitemap_info_truthy. reflexivity. Qed.

(** C3.  The body has the line [Sitemap: https://x.com/sm.xml] after a
    [Sitemap:] line without value.  The whitespace after the first colon
    runs over the line end, so the one match is the whole second line and
    the URL of that line is not in the list. *)
Theorem sitemap_line_swallowed :
  In "Sitemap: https://x.com/sm.xml"
     (splitlines ("Sitemap:" ++ nl ++ "Sitemap: https://x.com/sm.xml"))
  /\ sitemap_matches ("Sitemap:" ++ nl ++ "Sitemap: https://x.com/sm.xml")
     = ["Sitemap: https://x.com/sm.xml"]
  /\ ~ In "https://x.com/sm.xml"
         (sitemap_matches ("Sitemap:" ++ nl ++ "Sitemap: https://x.com/sm.xml"))
  /\ sitemap_matches ("Sitemap: https://x.com/sm.xml") = ["https://x.com/sm.xml"].
Proof.
  split; [right; left; reflexivity |].
  split; [reflexivity |].
  split; [| reflexivity].
  intros [H | []]. discriminate H.
Qed.

(** C5.  The patterns of the two path lists have no [(?i)]: a lower-case
    or upper-case directive name is not appended, where the canonical
    spelling is; the sitemap pattern, which has the flag, takes any
    casing. *)
Theorem allow_disallow_case_sensitive :
  allowed_paths "allow: /public" = []
  /\ allowed_paths "ALLOW: /public" = []
  /\ allowed_paths "Allow: /public" = ["/public"]
  /\ disallowed_paths "disallow: /private" = []
  /\ disallowed_paths "DISALLOW: /private" = []
  /\ disallowed_paths "Disallow: /private" = ["/private"]
  /\ sitemap_matches "sitemap: https://x.com/sm.xml" = ["https://x.com/sm.xml"].
Proof. repeat split. Qed.

(** ** The keywords of the script-heavy test *)

Lemma lower_char_not_upper (c : ascii) : isupper (lower_char c) = false.
Proof.
  destruct c as [b0 b1 b2 b3 b4 b5 b6 b7].
  destruct b0, b1, b2, b3, b4, b5, b6, b7; reflexivity.
Qed.

Lemma occurs_lower_not_upper (c : ascii) (s : string) :
  occurs c (lower s) = true -> isupper c = false.
Proof.
  induction s as [| d t IH]; simpl; [discriminate |].
  intros H. apply orb_true_iff in H. destruct H as [H | H]; [| apply IH; exact H].
  apply Ascii.eqb_eq in H. subst c. apply lower_char_not_upper.
Qed.

Lemma prefix_occurs (c : ascii) (p s : string) :
  String.prefix p s = true -> occurs c p = true -> occurs c s = true.
Proof.
  revert s. induction p as [| a p' IH]; intros s Hp Hc; simpl in Hc; [discriminate |].
  destruct s as [| b s']; simpl in Hp; [discriminate |].
  destruct (ascii_dec a b) as [-> | Hne]; [| discriminate].
  simpl. apply orb_true_iff in Hc. apply orb_true_iff.
  destruct Hc as [Hc | Hc]; [left; exact Hc | right; apply IH; assumption].
Qed.

Lemma contains_occurs (c : ascii) (p s : string) :
  contains p s = true -> occurs c p = true -> occurs c s = true.
Proof.
  induction s as [| b s' IH]; simpl; intros H Hc.
  - destruct p; [discriminate Hc | discriminate H].
  - apply orb_true_iff in H. destruct H as [H | H].
    + apply (prefix_occurs c p (String b s') H Hc).
    + apply orb_true_iff. right. apply IH; assumption.
Qed.

(** A keyword with an upper-case letter is never found in a lowered text. *)
Lemma upper_keyword_never_found (c : ascii) (k s : string) :
  isupper c = true -> occurs c k = true -> contains k (lower s) = false.
Proof.
  intros Hup Hk. destruct (contains k (lower s)) eqn:E; [| reflexivity].
  pose proof (contains_occurs c k (lower s) E Hk) as Hocc.
  apply occurs_lower_not_upper in Hocc. congruence.
Qed.

(** The test amounts to the four lower-case keywords. *)
Lemma js_heavy_four_keywords (content : string) :
  js_heavy content
  = contains "webpack" (lower content) || contains "react" (lower content)
    || contains "vue" (lower content) || contains "next.js" (lower content).
Proof.
  unfold js_heavy, js_keywords. cbn [existsb].
  rewrite (upper_keyword_never_found "I" "window.__INITIAL_STATE__" content)
    by reflexivity.
  cbn [orb]. rewrite orb_false_r, !orb_assoc. reflexivity.
Qed.

(** C4.  The second keyword of the list is written with upper-case
    letters and is looked for in the lowered body, where it cannot occur: a
    body with [window.__INITIAL_STATE__] and no other keyword is not
    script-heavy, although its lowered form contains the lowered keyword. *)
Theorem js_heavy_initial_state_missed :
  js_heavy "window.__INITIAL_STATE__ = {}" = false
  /\ js_heavy "window.__initial_state__ = {}" = false
  /\ contains "window.__initial_state__" (lower "window.__INITIAL_STATE__ = {}") = true
  /\ (forall content, contains "window.__INITIAL_STATE__" (lower content) = false).
Proof.
  split; [reflexivity |]. split; [reflexivity |]. split; [reflexivity |].
  intros content. apply (upper_keyword_never_found "I"); reflexivity.
Qed.

(** ** The sitemap preview *)

(** The four ways out of the preview. *)
Lemma sitemap_preview_cases (w : World) (matches : list string) :
  match matches with
  | [] => sitemap_preview w matches = "N/A"
  | first :: _ =>
      match requests_get w first 10 with
      | Raise _ => sitemap_preview w matches = "Failed to preview"
      | Return sm_resp =>
          if (status_code sm_resp =? 200)%Z then
            match Re.findall Re.loc_pattern false (text sm_resp) with
            | [] => sitemap_preview w matches = "No URLs Found"
            | urls => sitemap_preview w matches = join nl (firstn 5 urls)
            end
          else sitemap_preview w matches = "N/A"
      end
  end.
Proof.
  unfold sitemap_preview, sitemap_preview_try.
  destruct matches as [| first rest]; [reflexivity |].
  destruct (requests_get w first 10) as [sm_resp |]; cbn [bind]; [| reflexivity].
  destruct (status_code sm_resp =? 200)%Z; [| reflexivity].
  destruct (Re.findall Re.loc_pattern false (text sm_resp)); reflexivity.
Qed.

(** A response with another status than 200 leaves the preview as it is
    for a site without sitemap. *)
Lemma sitemap_preview_other_status (w : World) (first : string) (rest : list string)
      (sm_resp : Response) :
  requests_get w first 10 = Return sm_resp ->
  status_code sm_resp <> 200%Z ->
  sitemap_preview w (first :: rest) = sitemap_preview w [].
Proof.
  intros H Hst. unfold sitemap_preview, sitemap_preview_try. rewrite H. cbn [bind].
  destruct (Z.eqb_spec (status_code sm_resp) 200) as [E | _]; [contradiction |].
  reflexivity.
Qed.

(** C6.  A sitemap URL that answers 404 leaves the preview at its initial
    value, the marker of a site without sitemap; the marker of a failed
    fetch is only set when the request raises. *)
Theorem sitemap_preview_non_200 :
  requests_get Fixture.w_sitemap_404 "https://x.com/sm.xml" 10
  = Return (mkResponse 404 "Not Found")
  /\ sitemap_preview Fixture.w_sitemap_404 ["https://x.com/sm.xml"] = "N/A"
  /\ sitemap_preview Fixture.w_sitemap_404 [] = "N/A"
  /\ sitemap_preview Fixture.w_sitemap_down ["https://x.com/sm.xml"] = "Failed to preview"
  /\ Sitemap_Preview (check_site Fixture.w_sitemap_404 Fixture.url_x "*" 5) = "N/A".
Proof. repeat split. Qed.

(** ** Sitemap lines that are read as written *)

Module SitemapLines.
Import Re.

Lemma append_nil_r (x : string) : x ++ EmptyString = x.
Proof. induction x as [| c t IH]; simpl; [| rewrite IH]; reflexivity. Qed.

Lemma dot_run_clean (x rest : string) :
  occurs LF x = false -> dot_run (x ++ String LF rest) = x.
Proof.
  induction x as [| c t IH]; simpl; intros H.
  - reflexivity.
  - apply orb_false_iff in H. destruct H as [Hc Ht].
    rewrite Hc, (IH Ht). reflexivity.
Qed.

Lemma dot_run_clean_end (x : string) : occurs LF x = false -> dot_run x = x.
Proof.
  induction x as [| c t IH]; simpl; intros H.
  - reflexivity.
  - apply orb_false_iff in H. destruct H as [Hc Ht].
    rewrite Hc, (IH Ht). reflexivity.
Qed.

Lemma bol_after_clean (bol : bool) (c : ascii) (t : string) :
  occurs LF (String c t) = false -> bol_after bol (String c t) = false.
Proof.
  revert bol c. induction t as [| d t' IH]; intros bol c H.
  - cbn [bol_after occurs] in H |- *. rewrite orb_false_r in H. exact H.
  - change (bol_after bol (String c (String d t')))
      with (bol_after (Ascii.eqb c LF) (String d t')).
    apply IH. cbn [occurs] in H |- *.
    apply orb_false_iff in H. destruct H as [_ H]. exact H.
Qed.

Lemma bol_after_app (bol : bool) (u v : string) :
  bol_after bol (u ++ v) = bol_after (bol_after bol u) v.
Proof.
  revert bol. induction u as [| c t IH]; intros bol; simpl; [reflexivity | apply IH].
Qed.

(** The characters of a match are passed without a new attempt. *)
Lemma findall_go_skip (m : string -> option (string * nat)) (bol_only : bool)
      (u v : string) :
  forall bol,
    findall_go m bol_only (String.length u) bol (u ++ v)
    = findall_go m bol_only 0 (bol_after bol u) v.
Proof.
  induction u as [| c t IH]; intros bol; simpl.
  - reflexivity.
  - apply IH.
Qed.

Lemma findall_go_skip_all (m : string -> option (string * nat)) (bol_only : bool)
      (u : string) :
  forall bol, findall_go m bol_only (String.length u) bol u = [].
Proof.
  induction u as [| c t IH]; intros bol; simpl; [reflexivity | apply IH].
Qed.

(** Inside a line a pattern that starts with [^] is not tried. *)
Lemma findall_go_inside_line (m : string -> option (string * nat)) (u v : string) :
  occurs LF u = false ->
  findall_go m true 0 false (u ++ v) = findall_go m true 0 false v.
Proof.
  induction u as [| c t IH]; simpl; intros H.
  - reflexivity.
  - apply orb_false_iff in H. destruct H as [Hc Ht]. rewrite Hc. apply IH. exact Ht.
Qed.

Lemma ws_dotplus_nonspace (c : ascii) (r : string) :
  isspace c = false ->
  ws_dotplus (String c r)
  = Some (dot_run (String c r), String.length (dot_run (String c r))).
Proof. intros H. cbn [ws_dotplus]. rewrite H. reflexivity. Qed.

Lemma ws_dotplus_space (c : ascii) (r : string) :
  isspace c = false ->
  ws_dotplus (String " " (String c r))
  = Some (dot_run (String c r), S (String.length (dot_run (String c r)))).
Proof.
  intros H.
  change (ws_dotplus (String " " (String c r)))
    with (match ws_dotplus (String c r) with
          | Some (g, n) => Some (g, S n)
          | None => Some (dot_run (String " " (String c r)),
                          String.length (dot_run (String " " (String c r))))
          end).
  rewrite (ws_dotplus_nonspace c r H). reflexivity.
Qed.

Lemma sitemap_pattern_clean (x tail : string) :
  clean_value x = true ->
  dot_run (x ++ tail) = x ->
  sitemap_pattern ("Sitemap: " ++ x ++ tail)
  = Some (x, String.length "Sitemap: " + String.length x).
Proof.
  intros Hx Hrun. unfold sitemap_pattern.
  change (strip_prefix true "Sitemap:" ("Sitemap: " ++ x ++ tail))
    with (Some (String " " (x ++ tail))).
  destruct x as [| c t]; [discriminate |].
  apply andb_true_iff in Hx. destruct Hx as [Hc _]. apply negb_true_iff in Hc.
  change (String c t ++ tail) with (String c (t ++ tail)) in *.
  rewrite (ws_dotplus_space c (t ++ tail) Hc), Hrun. reflexivity.
Qed.

(** A line [Sitemap: x] with a clean value, followed by more lines, gives
    [x] and then the matches of the rest. *)
Lemma sitemap_matches_line (x rest : string) :
  clean_value x = true ->
  sitemap_matches ("Sitemap: " ++ x ++ String LF rest) = x :: sitemap_matches rest.
Proof.
  intros Hx.
  assert (Hlf : occurs LF x = false).
  { destruct x as [| c t]; [discriminate |].
    apply andb_true_iff in Hx. destruct Hx as [_ H]. apply negb_true_iff in H. exact H. }
  unfold sitemap_matches, findall.
  change ("Sitemap: " ++ x ++ String LF rest)
    with (String "S" ("itemap: " ++ x ++ String LF rest)).
  cbn [findall_go negb orb].
  change (String "S" ("itemap: " ++ x ++ String LF rest))
    with ("Sitemap: " ++ x ++ String LF rest).
  rewrite (sitemap_pattern_clean x (String LF rest) Hx (dot_run_clean x rest Hlf)).
  f_equal.
  change (Nat.pred (String.length "Sitemap: " + String.length x))
    with (String.length ("itemap: " ++ x)).
  change ("itemap: " ++ x ++ String LF rest) with (("itemap: " ++ x) ++ String LF rest).
  rewrite findall_go_skip, bol_after_app.
  destruct x as [| c t]; [discriminate |].
  rewrite (bol_after_clean _ c t Hlf).
  cbn [findall_go negb orb]. rewrite Ascii.eqb_refl. reflexivity.
Qed.

(** The same line at the end of the body. *)
Lemma sitemap_matches_last_line (x : string) :
  clean_value x = true -> sitemap_matches ("Sitemap: " ++ x) = [x].
Proof.
  intros Hx.
  assert (Hlf : occurs LF x = false).
  { destruct x as [| c t]; [discriminate |].
    apply andb_true_iff in Hx. destruct Hx as [_ H]. apply negb_true_iff in H. exact H. }
  pose proof (sitemap_pattern_clean x EmptyString Hx) as Hpat.
  rewrite append_nil_r in Hpat. specialize (Hpat (dot_run_clean_end x Hlf)).
  unfold sitemap_matches, findall.
  change ("Sitemap: " ++ x) with (String "S" ("itemap: " ++ x)) in *.
  cbn [findall_go negb orb]. rewrite Hpat. f_equal.
  change (Nat.pred (String.length "Sitemap: " + String.length x))
    with (String.length ("itemap: " ++ x)).
  apply findall_go_skip_all.
Qed.

(** A line on which the pattern does not match is passed over. *)
Lemma sitemap_matches_other_line (l rest : string) :
  occurs LF l = false ->
  sitemap_pattern (l ++ String LF rest) = None ->
  sitemap_matches (l ++ String LF rest) = sitemap_matches rest.
Proof.
  intros Hlf Hno. unfold sitemap_matches, findall.
  destruct l as [| c t].
  - cbn [append findall_go negb orb]. cbn [append] in Hno. rewrite Hno.
    rewrite Ascii.eqb_refl. reflexivity.
  - change (String c t ++ String LF rest) with (String c (t ++ String LF rest)) in *.
    cbn [findall_go negb orb]. rewrite Hno.
    simpl in Hlf. apply orb_false_iff in Hlf. destruct Hlf as [Hc Ht]. rewrite Hc.
    rewrite (findall_go_inside_line _ t (String LF rest) Ht).
    cbn [findall_go negb orb]. rewrite Ascii.eqb_refl. reflexivity.
Qed.

End SitemapLines.

(** ** Scenarios *)

(** A robots file that disallows [/private] and declares a sitemap, asked
    for a page under [/private]: crawling is not allowed, the sitemap is
    found and is the best method. *)
Example scenario_private_page :
  let r := check_site_default Fixture.w_sitemap_404 "https://x.com/private/page" in
  Crawling_Allowed r = "❌ No"
  /\ Sitemap_Found r = "https://x.com/sm.xml"
  /\ Best_Access_Method r = "📦 Sitemap (Recommended)"
  /\ Disallowed_Paths r = "/private"
  /\ Crawlability_Score r = 40%Z.
Proof. repeat split. Qed.

(** The robots fetch answers 404: the degraded record. *)
Example scenario_robots_404 :
  check_site_default Fixture.w_404 Fixture.url_x = degraded Fixture.url_x "HTTP 404".
Proof. reflexivity. Qed.

(** A sitemap without [loc] element: the preview says that no URL was
    found. *)
Example scenario_no_loc :
  sitemap_preview
    (Fixture.world (fun _ => Return (mkResponse 200 "<urlset></urlset>")))
    ["https://x.com/sm.xml"]
  = "No URLs Found".
Proof. reflexivity. Qed.

(** More than five [loc] elements: the preview keeps the first five, one
    per line. *)
Example scenario_six_locs :
  sitemap_preview
    (Fixture.world
       (fun _ => Return (mkResponse 200
          "<loc>1</loc><loc>2</loc><loc>3</loc><loc>4</loc><loc>5</loc><loc>6</loc>")))
    ["https://x.com/sm.xml"]
  = "1" ++ nl ++ "2" ++ nl ++ "3" ++ nl ++ "4" ++ nl ++ "5".
Proof. reflexivity. Qed.

(** * Further properties of the code *)

(** ** The record of [check_site] *)


(** X1.  Whatever the URL, the agent, the timeout and the world, the
    record carries the URL as it was given, not stripped, in its first
    field, in the degraded record as in the full one. *)
Theorem website_is_input (w : World) (url user_agent : string) (timeout : Z) :
  Website (check_site w url user_agent timeout) = url.
Proof.
  unfold check_site, check_site_try.
  destruct (urlparse w (strip url)) as [p |]; cbn [bind]; [| reflexivity].
  destruct (requests_get w (robots_url_of p) timeout) as [resp |]; cbn [bind];
    [| reflexivity].
  destruct (negb (status_code resp =? 200)%Z); [reflexivity |].
  destruct (load_robots w (robots_url_of p) (text resp)) as [rp |]; cbn [bind];
    [| reflexivity].
  destruct (RobotParser.can_fetch w rp user_agent url) as [ca |]; reflexivity.
Qed.

Lemma project_type_labels (url : string) (api_url sitemap_info : option string) :
  project_type url api_url sitemap_info <> "🔴 Not Recommended".
Proof.
  unfold project_type.
  repeat match goal with
         | |- (if ?b then _ else _) <> _ => destruct b
         end; discriminate.
Qed.

Lemma full_row_not_degraded (w : World) (url domain content : string)
      (crawl_allowed : bool) (crawl_delay : option N) :
  ~ is_degraded (full_row w url domain content crawl_allowed crawl_delay).
Proof.
  intros [_ [Hbest [_ [Hsm _]]]]. cbn [Best_Access_Method Sitemap_Found full_row] in *.
  unfold best_method in Hbest.
  destruct (sitemap_info content) as [s |]; cbn [truthy_opt] in *.
  - destruct (truthy s); [discriminate Hbest | discriminate Hsm].
  - discriminate Hsm.
Qed.

(** X2.  A record is the degraded one exactly when its suggested use is
    "Not Recommended", and exactly when it has the degraded shape; in every
    other record the crawling field is a plain "Yes" or a plain "No", so an
    unreachable site is never shown like a site that forbids crawling. *)
Theorem degraded_records_are_marked (w : World) (url user_agent : string)
        (timeout : Z) :
  ((exists reason, check_site w url user_agent timeout = degraded url reason)
   <-> Suggested_Use (check_site w url user_agent timeout) = "🔴 Not Recommended")
  /\ ((exists reason, check_site w url user_agent timeout = degraded url reason)
      <-> is_degraded (check_site w url user_agent timeout))
  /\ ((exists reason, check_site w url user_agent timeout = degraded url reason)
      \/ Crawling_Allowed (check_site w url user_agent timeout) = "✅ Yes"
      \/ Crawling_Allowed (check_site w url user_agent timeout) = "❌ No").
Proof.
  destruct (check_site_cases w url user_agent timeout)
    as [[reason H] | [domain [content [ca [cd H]]]]]; rewrite H.
  - split; [| split].
    + split; [reflexivity | intros _; exists reason; reflexivity].
    + split; [intros _; apply degraded_is_degraded | intros _; exists reason; reflexivity].
    + left. exists reason. reflexivity.
  - split; [| split].
    + split.
      * intros [reason Hr]. rewrite Hr. reflexivity.
      * intros Hs. cbn [Suggested_Use full_row] in Hs.
        exfalso. exact (project_type_labels _ _ _ Hs).
    + split.
      * intros [reason Hr]. rewrite Hr. apply degraded_is_degraded.
      * intros Hd. exfalso. exact (full_row_not_degraded _ _ _ _ _ _ Hd).
    + right. cbn [Crawling_Allowed full_row]. destruct ca; [left | right]; reflexivity.
Qed.

(** The cases of a full record over the five signals. *)
Ltac full_row_signals content domain ca :=
  unfold score, methods, best_method, tool_suggestion;
  rewrite ?sitemap_info_truthy, ?api_url_truthy;
  destruct ca, (nonempty (sitemap_matches content)), (rss_found content),
    (is_some (get_known_api domain)), (js_heavy content).

(** X3.  The fallback suggestion of the source is never shown.  The
    "blocked" suggestion goes with a plain "No" in the crawling field, the
    lightweight one with "Yes" on a mostly-HTML site, the headless one with
    "Yes" on a script-heavy site. *)
Theorem tool_suggestion_table (w : World) (url user_agent : string) (timeout : Z) :
  let r := check_site w url user_agent timeout in
  Advanced_Crawling_Suggestion r
  <> "⚠️ Fallback: Try headless tools (e.g., Splash, Playwright)"
  /\ (Crawling_Allowed r = "❌ No"
      <-> Advanced_Crawling_Suggestion r
          = "🔴 Crawling blocked. Consider Playwright or Splash (headless browser), or look for public APIs")
  /\ (Crawling_Allowed r = "✅ Yes" /\ JS_Heavy_Site r = "✅ Mostly HTML"
      <-> Advanced_Crawling_Suggestion r
          = "🟢 Use requests + BeautifulSoup (lightweight & fast)")
  /\ (Crawling_Allowed r = "✅ Yes" /\ JS_Heavy_Site r = "🧠 Likely JS-Rendered"
      <-> Advanced_Crawling_Suggestion r
          = "🟡 Use Playwright, Puppeteer, or Selenium (JS-rendered content)").
Proof.
  cbv zeta.
  destruct (check_site_cases w url user_agent timeout)
    as [[reason H] | [domain [content [ca [cd H]]]]]; rewrite H.
  - cbn [Advanced_Crawling_Suggestion Crawling_Allowed JS_Heavy_Site degraded].
    repeat split; try discriminate; try (intros [? ?]; discriminate).
  - cbn [Advanced_Crawling_Suggestion Crawling_Allowed JS_Heavy_Site full_row].
    unfold tool_suggestion. destruct ca, (js_heavy content); cbn;
      repeat split; try discriminate; try reflexivity;
      try (intros [? ?]; discriminate).
Qed.

(** A literal is not among the other literals of a list. *)
Ltac not_in_list :=
  let H := fresh "H" in
  intros H; repeat (destruct H as [H | H]; [discriminate H |]); contradiction.

(** X4.  The best method agrees with the list of available methods: it is
    the sitemap only when [Sitemap] is in the list, normal crawling only
    when [Normal Crawling] is in the list and [Sitemap] is not, and no
    access exactly when neither is in the list. *)
Theorem best_method_among_methods (content : string) (crawl_allowed : bool)
        (api_url : option string) (rss : bool) :
  let ms := methods crawl_allowed (sitemap_info content) api_url rss in
  let best := best_method (sitemap_info content) crawl_allowed in
  (best = "📦 Sitemap (Recommended)" <-> In "Sitemap" ms)
  /\ (best = "✅ Normal Crawling" <-> In "Normal Crawling" ms /\ ~ In "Sitemap" ms)
  /\ (best = "❌ No Access" <-> ~ In "Normal Crawling" ms /\ ~ In "Sitemap" ms).
Proof.
  cbv zeta. unfold methods, best_method. rewrite sitemap_info_truthy.
  destruct crawl_allowed, (nonempty (sitemap_matches content)), (truthy_opt api_url), rss;
    cbn; repeat split; try discriminate; try tauto;
    try solve [intros H; decompose [or and] H; try discriminate; tauto];
    try solve [intros; not_in_list].
Qed.

(** X5.  The methods field says "None" exactly when the record is a full
    one whose score is at most 10: nothing but the mostly-HTML bonus. *)
Theorem no_method_low_score (w : World) (url user_agent : string) (timeout : Z) :
  let r := check_site w url user_agent timeout in
  All_Crawling_Methods_Available r = "None"
  <-> (Crawlability_Score r <= 10)%Z /\ Suggested_Use r <> "🔴 Not Recommended".
Proof.
  cbv zeta.
  destruct (check_site_cases w url user_agent timeout)
    as [[reason H] | [domain [content [ca [cd H]]]]]; rewrite H.
  - cbn. split; [discriminate | intros [_ Hs]; contradiction Hs; reflexivity].
  - cbn [All_Crawling_Methods_Available Crawlability_Score Suggested_Use full_row].
    pose proof (project_type_labels url (get_known_api domain) (sitemap_info content))
      as Hlabel.
    revert Hlabel.
    generalize (project_type url (get_known_api domain) (sitemap_info content)) as label.
    intros label Hlabel.
    full_row_signals content domain ca; cbn;
      (split; [intros Hn; first [discriminate Hn | split; [lia | exact Hlabel]]
              | intros [Hs _]; first [lia | reflexivity]]).
Qed.

(** X6.  The bar is green only for a site that may be crawled and has a
    sitemap, and it is red for every record whose best method is no access,
    the degraded ones included. *)
Theorem bar_color_of_record (w : World) (url user_agent : string) (timeout : Z) :
  let r := check_site w url user_agent timeout in
  (Handler.bar_color (Crawlability_Score r) = "#4CAF50" ->
   Crawling_Allowed r = "✅ Yes" /\ Best_Access_Method r = "📦 Sitemap (Recommended)")
  /\ (Best_Access_Method r = "❌ No Access" ->
      Handler.bar_color (Crawlability_Score r) = "#F44336").
Proof.
  cbv zeta.
  destruct (check_site_cases w url user_agent timeout)
    as [[reason H] | [domain [content [ca [cd H]]]]]; rewrite H.
  - cbn. split; [discriminate | reflexivity].
  - cbn [Crawling_Allowed Best_Access_Method Crawlability_Score full_row].
    full_row_signals content domain ca; cbn;
      (split; [intros Hg; first [discriminate Hg | split; reflexivity]
              | intros Hb; first [discriminate Hb | reflexivity]]).
Qed.

(** [bar_color_of_record] on the site of [Fixture.w_demo], whose bar is
    green, and on a site without robots file, whose bar is red. *)
Lemma bar_color_of_record_witness :
  Handler.bar_color (Crawlability_Score (check_site Fixture.w_demo Fixture.url_demo "*" 5))
  = "#4CAF50"
  /\ Crawling_Allowed (check_site Fixture.w_demo Fixture.url_demo "*" 5) = "✅ Yes"
  /\ Best_Access_Method (check_site Fixture.w_404 Fixture.url_x "*" 5) = "❌ No Access"
  /\ Handler.bar_color (Crawlability_Score (check_site Fixture.w_404 Fixture.url_x "*" 5))
     = "#F44336".
Proof.
  assert (H1 : Handler.bar_color
                 (Crawlability_Score (check_site Fixture.w_demo Fixture.url_demo "*" 5))
               = "#4CAF50") by reflexivity.
  assert (H2 : Best_Access_Method (check_site Fixture.w_404 Fixture.url_x "*" 5)
               = "❌ No Access") by reflexivity.
  split; [exact H1 |].
  split; [exact (proj1 (proj1 (bar_color_of_record Fixture.w_demo Fixture.url_demo "*" 5)
                          H1)) |].
  split; [exact H2 |].
  exact (proj2 (bar_color_of_record Fixture.w_404 Fixture.url_x "*" 5) H2).
Defined.

(** ** The keyword tests ignore case *)

Lemma lower_char_idem (c : ascii) : lower_char (lower_char c) = lower_char c.
Proof.
  destruct c as [b0 b1 b2 b3 b4 b5 b6 b7].
  destruct b0, b1, b2, b3, b4, b5, b6, b7; reflexivity.
Qed.

Lemma lower_idem (s : string) : lower (lower s) = lower s.
Proof.
  induction s as [| c t IH]; simpl; [reflexivity |].
  rewrite lower_char_idem, IH. reflexivity.
Qed.

Lemma prefix_lower (p s : string) :
  String.prefix p s = true -> String.prefix (lower p) (lower s) = true.
Proof.
  revert s. induction p as [| a p' IH]; intros s H.
  - destruct s; reflexivity.
  - destruct s as [| b s']; simpl in H |- *; [discriminate |].
    destruct (ascii_dec a b) as [-> | Hne]; [| discriminate].
    destruct (ascii_dec (lower_char b) (lower_char b)) as [_ | Hn];
      [apply IH; exact H | contradiction Hn; reflexivity].
Qed.

(** A text found in a body is found, lowered, in the lowered body. *)
Lemma contains_lower (p s : string) :
  contains p s = true -> contains (lower p) (lower s) = true.
Proof.
  induction s as [| b s' IH]; intros H.
  - destruct p; [reflexivity | discriminate H].
  - cbn [contains] in H. apply orb_true_iff in H.
    change (lower (String b s')) with (String (lower_char b) (lower s')).
    cbn [contains]. apply orb_true_iff. destruct H as [H | H].
    + left. apply (prefix_lower p (String b s')). exact H.
    + right. apply IH. exact H.
Qed.

(** X7.  The feed test ignores case: a body that contains [rss] or [feed]
    in any casing has an RSS feed, and lowering the body does not change
    the answer. *)
Theorem rss_found_any_case (k content : string) :
  (lower k = "rss" \/ lower k = "feed" -> contains k content = true ->
   rss_found content = true)
  /\ rss_found (lower content) = rss_found content.
Proof.
  split.
  - intros Hk Hc. apply contains_lower in Hc. unfold rss_found.
    apply orb_true_iff. destruct Hk as [Hk | Hk]; rewrite Hk in Hc; [left | right];
      exact Hc.
  - unfold rss_found. rewrite lower_idem. reflexivity.
Qed.

(** [rss_found_any_case] on a body that names its feed in capitals. *)
Lemma rss_found_any_case_witness :
  lower "FEED" = "feed"
  /\ contains "FEED" "# Atom FEED: /atom.xml" = true
  /\ rss_found "# Atom FEED: /atom.xml" = true.
Proof.
  assert (H1 : lower "FEED" = "feed") by reflexivity.
  assert (H2 : contains "FEED" "# Atom FEED: /atom.xml" = true) by reflexivity.
  split; [exact H1 |]. split; [exact H2 |].
  exact (proj1 (rss_found_any_case "FEED" "# Atom FEED: /atom.xml") (or_intror H1) H2).
Defined.

(** X8.  The script-heavy test ignores case for its four lower-case
    keywords: a body that contains [webpack], [react], [vue] or [next.js]
    in any casing is script-heavy, and lowering the body does not change
    the answer. *)
Theorem js_heavy_any_case (k content : string) :
  (In (lower k) ["webpack"; "react"; "vue"; "next.js"] ->
   contains k content = true -> js_heavy content = true)
  /\ js_heavy (lower content) = js_heavy content.
Proof.
  split.
  - intros Hk Hc. apply contains_lower in Hc. rewrite js_heavy_four_keywords.
    destruct Hk as [Hk | [Hk | [Hk | [Hk | []]]]]; rewrite <- Hk in Hc; rewrite Hc;
      rewrite ?orb_true_r; reflexivity.
  - rewrite !js_heavy_four_keywords, lower_idem. reflexivity.
Qed.

(** [js_heavy_any_case] on a comment that names React. *)
Lemma js_heavy_any_case_witness :
  In (lower "React") ["webpack"; "react"; "vue"; "next.js"]
  /\ contains "React" "# built with React" = true
  /\ js_heavy "# built with React" = true.
Proof.
  assert (H1 : In (lower "React") ["webpack"; "react"; "vue"; "next.js"])
    by (right; left; reflexivity).
  assert (H2 : contains "React" "# built with React" = true) by reflexivity.
  split; [exact H1 |]. split; [exact H2 |].
  exact (proj1 (js_heavy_any_case "React" "# built with React") H1 H2).
Defined.

(** ** What the patterns can capture *)

Module Captures.
Import Re.

Lemma dot_run_no_LF (s : string) : occurs LF (dot_run s) = false.
Proof.
  induction s as [| c t IH]; simpl; [reflexivity |].
  destruct (Ascii.eqb c LF) eqn:E; [reflexivity |].
  simpl. rewrite E, IH. reflexivity.
Qed.

Lemma ws_dotplus_no_LF (s g : string) (n : nat) :
  ws_dotplus s = Some (g, n) -> occurs LF g = false.
Proof.
  revert g n. induction s as [| c t IH]; intros g n H; [discriminate H |].
  cbn [ws_dotplus] in H. destruct (isspace c).
  - destruct (ws_dotplus t) as [[g' n'] |] eqn:Hrec.
    + inversion H; subst. eapply IH. reflexivity.
    + destruct (Ascii.eqb c LF); [discriminate H |].
      inversion H; subst. exact (dot_run_no_LF (String c t)).
  - inversion H; subst. exact (dot_run_no_LF (String c t)).
Qed.

Lemma ws_dotstar_clean (s : string) :
  occurs LF (fst (ws_dotstar s)) = false
  /\ starts_with_space (fst (ws_dotstar s)) = false.
Proof.
  induction s as [| c t IH]; [split; reflexivity |].
  cbn [ws_dotstar]. destruct (isspace c) eqn:Hsp.
  - destruct (ws_dotstar t) as [g n]. exact IH.
  - cbn [fst]. split; [apply dot_run_no_LF |].
    cbn [dot_run]. rewrite (not_space_not_LF c Hsp). cbn. exact Hsp.
Qed.

Lemma prefix_refl_app (a b : string) : String.prefix a (a ++ b) = true.
Proof.
  induction a as [| c t IH]; simpl.
  - destruct b; reflexivity.
  - destruct (ascii_dec c c) as [_ | Hn]; [exact IH | contradiction Hn; reflexivity].
Qed.

Lemma prefix_trans (p a b : string) :
  String.prefix p a = true -> String.prefix a b = true -> String.prefix p b = true.
Proof.
  revert a b. induction p as [| c p' IH]; intros a b Hpa Hab.
  - destruct b; reflexivity.
  - destruct a as [| d a']; [discriminate Hpa |].
    destruct b as [| e b']; [discriminate Hab |].
    simpl in *.
    destruct (ascii_dec c d) as [-> | ?]; [| discriminate Hpa].
    destruct (ascii_dec d e) as [-> | ?]; [| discriminate Hab].
    eapply IH; eassumption.
Qed.

Lemma prefix_nil_r (p : string) : String.prefix p EmptyString = true -> p = EmptyString.
Proof. destruct p; [reflexivity | discriminate]. Qed.

(** The group of the lazy pattern is a prefix of the text, without LF and
    without the closing literal inside. *)
Lemma lazy_until_spec (close s g : string) (n : nat) :
  close <> EmptyString ->
  lazy_until close s = Some (g, n) ->
  String.prefix g s = true /\ occurs LF g = false /\ contains close g = false.
Proof.
  intros Hclose. revert g n. induction s as [| c t IH]; intros g n H.
  - cbn [lazy_until] in H. destruct (String.prefix close EmptyString) eqn:Hp.
    + apply prefix_nil_r in Hp. contradiction.
    + discriminate H.
  - cbn [lazy_until] in H. destruct (String.prefix close (String c t)) eqn:Hp.
    + inversion H; subst. repeat split.
      destruct close; [contradiction Hclose; reflexivity | reflexivity].
    + destruct (Ascii.eqb c LF) eqn:Hlf; [discriminate H |].
      destruct (lazy_until close t) as [[g' n'] |] eqn:Hrec; [| discriminate H].
      inversion H; subst. destruct (IH g' n' eq_refl) as [Hpre [Hno Hcont]].
      split; [| split].
      * simpl. destruct (ascii_dec c c) as [_ | Hn]; [exact Hpre | contradiction Hn; reflexivity].
      * simpl. rewrite Hlf, Hno. reflexivity.
      * cbn [contains]. rewrite Hcont, orb_false_r.
        destruct (String.prefix close (String c g')) eqn:Hp2; [| reflexivity].
        assert (Hpt : String.prefix (String c g') (String c t) = true).
        { simpl. destruct (ascii_dec c c) as [_ | Hn]; [exact Hpre | contradiction Hn; reflexivity]. }
        rewrite (prefix_trans _ _ _ Hp2 Hpt) in Hp. discriminate Hp.
Qed.

End Captures.

(** X9.  Every sitemap URL read from a robots body has at least one
    character and no line feed. *)
Theorem sitemap_values_single_line (content : string) :
  Forall (fun g => truthy g = true /\ occurs LF g = false) (sitemap_matches content).
Proof.
  unfold sitemap_matches, Re.findall. apply findall_go_Forall.
  intros s g n H. split; [eapply sitemap_pattern_truthy; exact H |].
  unfold Re.sitemap_pattern in H.
  destruct (Re.strip_prefix true "Sitemap:" s) as [r |]; [| discriminate H].
  destruct (Re.ws_dotplus r) as [[g' n'] |] eqn:Hws; [| discriminate H].
  inversion H; subst. eapply Captures.ws_dotplus_no_LF. exact Hws.
Qed.

Lemma directive_pattern_clean (name s g : string) (n : nat) :
  Re.directive_pattern name s = Some (g, n) ->
  occurs LF g = false /\ starts_with_space g = false.
Proof.
  unfold Re.directive_pattern. intros H.
  destruct (Re.strip_prefix false name s) as [r |]; [| discriminate H].
  pose proof (Captures.ws_dotstar_clean r) as Hc.
  destruct (Re.ws_dotstar r) as [g' n']. inversion H; subst. exact Hc.
Qed.

(** X10.  Every allowed and every disallowed path read from a robots body
    has no line feed and does not start with whitespace. *)
Theorem path_values_clean (content : string) :
  Forall (fun g => occurs LF g = false /\ starts_with_space g = false)
         (allowed_paths content)
  /\ Forall (fun g => occurs LF g = false /\ starts_with_space g = false)
            (disallowed_paths content).
Proof.
  split; unfold allowed_paths, disallowed_paths, Re.findall; apply findall_go_Forall;
    intros s g n H; eapply directive_pattern_clean; exact H.
Qed.

Lemma findall_loc_clean (body : string) :
  Forall (fun g => occurs LF g = false /\ contains "</loc>" g = false)
         (Re.findall Re.loc_pattern false body).
Proof.
  unfold Re.findall. apply findall_go_Forall. intros s g n H.
  unfold Re.loc_pattern in H.
  destruct (Re.strip_prefix false "<loc>" s) as [r |]; [| discriminate H].
  destruct (Re.lazy_until "</loc>" r) as [[g' n'] |] eqn:Hl; [| discriminate H].
  inversion H; subst.
  destruct (Captures.lazy_until_spec "</loc>" r g n') as [_ Hg];
    [discriminate | exact Hl | exact Hg].
Qed.

(** X11.  Every URL taken from a sitemap has no line feed and does not
    contain the closing tag: the match of a [loc] element ends at the first
    closing tag on its line. *)
Theorem loc_values_clean (body : string) :
  Forall (fun g => occurs LF g = false /\ contains "</loc>" g = false)
         (Re.findall Re.loc_pattern false body).
Proof.
  unfold Re.findall. apply findall_go_Forall. intros s g n H.
  unfold Re.loc_pattern in H.
  destruct (Re.strip_prefix false "<loc>" s) as [r |]; [| discriminate H].
  destruct (Re.lazy_until "</loc>" r) as [[g' n'] |] eqn:Hl; [| discriminate H].
  inversion H; subst.
  destruct (Captures.lazy_until_spec "</loc>" r g n' ltac:(discriminate) Hl)
    as [_ [Hlf Hclose]].
  split; [exact Hlf | exact Hclose].
Qed.

(** ** The size of the preview *)

Lemma count_char_app (c : ascii) (a b : string) :
  count_char c (a ++ b) = count_char c a + count_char c b.
Proof.
  induction a as [| d t IH]; simpl; [reflexivity |]. rewrite IH. lia.
Qed.

Lemma count_char_absent (c : ascii) (s : string) :
  occurs c s = false -> count_char c s = 0.
Proof.
  induction s as [| d t IH]; simpl; [reflexivity |].
  intros H. apply orb_false_iff in H. destruct H as [Hd Ht].
  rewrite Hd, (IH Ht). reflexivity.
Qed.

(** Joining lines without LF by LF gives one LF less than lines. *)
Lemma count_LF_join (l : list string) :
  Forall (fun g => occurs LF g = false) l ->
  count_char LF (join nl l) = length l - 1.
Proof.
  unfold join. induction l as [| g rest IH]; intros H; [reflexivity |].
  inversion H as [| ? ? Hg Hrest]; subst.
  destruct rest as [| h rest'].
  - simpl. apply count_char_absent. exact Hg.
  - change (String.concat nl (g :: h :: rest'))
      with (g ++ nl ++ String.concat nl (h :: rest')).
    rewrite !count_char_app, (count_char_absent LF g Hg), (IH Hrest).
    simpl. lia.
Qed.

Lemma Forall_firstn_weaken {A : Type} (P Q : A -> Prop) (n : nat) (l : list A) :
  (forall x, P x -> Q x) -> Forall P l -> Forall Q (firstn n l).
Proof.
  intros HPQ. revert n. induction l as [| x rest IH]; intros n H.
  - destruct n; constructor.
  - destruct n; [constructor |]. inversion H; subst. simpl.
    constructor; [apply HPQ; assumption | apply IH; assumption].
Qed.

Lemma length_firstn_le {A : Type} (n : nat) (l : list A) : length (firstn n l) <= n.
Proof.
  revert n. induction l as [| x rest IH]; intros n; destruct n; simpl; try lia.
  specialize (IH n). lia.
Qed.

Lemma sitemap_preview_lines (w : World) (matches : list string) :
  count_char LF (sitemap_preview w matches) <= 4.
Proof.
  unfold sitemap_preview, sitemap_preview_try.
  destruct matches as [| first rest]; [cbn; lia |].
  destruct (requests_get w first 10) as [sm_resp |]; cbn [bind]; [| cbn; lia].
  destruct (status_code sm_resp =? 200)%Z; [| cbn; lia].
  pose proof (findall_loc_clean (text sm_resp)) as Hclean.
  destruct (Re.findall Re.loc_pattern false (text sm_resp)) as [| u urls] eqn:E;
    [cbn; lia |].
  cbn [nonempty]. rewrite count_LF_join.
  - pose proof (length_firstn_le 5 (u :: urls)). lia.
  - apply (Forall_firstn_weaken
             (fun g => occurs LF g = false /\ contains "</loc>" g = false));
      [intros x [Hx _]; exact Hx | exact Hclean].
Qed.

(** X12.  The sitemap preview of a record never has more than five lines,
    whatever the sitemap contains. *)
Theorem preview_at_most_five_lines (w : World) (url user_agent : string)
        (timeout : Z) :
  count_char LF (Sitemap_Preview (check_site w url user_agent timeout)) <= 4.
Proof.
  destruct (check_site_cases w url user_agent timeout)
    as [[reason H] | [domain [content [ca [cd H]]]]]; rewrite H.
  - cbn. lia.
  - cbn [Sitemap_Preview full_row]. apply sitemap_preview_lines.
Qed.

(** ** Groups of the robots file *)

Module Groups.
Import RobotParser.

Lemma nothing_parsed_parse_line (w : World) (st st' : ParseState) (line : string) :
  line_has_directive "user-agent" line = false ->
  parse_line w st line = Return st' ->
  nothing_parsed st -> nothing_parsed st'.
Proof.
  unfold parse_line, line_has_directive, nothing_parsed.
  intros Hno H [Hs [He Hd]].
  assert (Hb : blank_step st = st) by (unfold blank_step; rewrite Hs; reflexivity).
  rewrite Hb in H.
  replace (if truthy line then st else st) with st in H by (destruct (truthy line); reflexivity).
  destruct (negb (truthy (strip (uncomment line)))); [inversion H; subst; auto |].
  destruct (directive line) as [[name value] |]; [| inversion H; subst; auto].
  rewrite Hno, Hs in H. cbn [Z.eqb negb] in H.
  repeat match type of H with
         | (if ?b then _ else _) = Return _ => destruct b
         end; inversion H; subst; cbn; auto.
Qed.

Lemma nothing_parsed_parse_lines (w : World) (lines : list string) :
  existsb (line_has_directive "user-agent") lines = false ->
  forall st st', parse_lines w st lines = Return st' ->
                 nothing_parsed st -> nothing_parsed st'.
Proof.
  induction lines as [| line rest IH]; intros Hno st st' H Hst; simpl in H.
  - inversion H; subst. exact Hst.
  - simpl in Hno. apply orb_false_iff in Hno. destruct Hno as [Hline Hrest].
    destruct (parse_line w st line) as [st1 |] eqn:E; simpl in H; [| discriminate].
    eapply IH; [exact Hrest | exact H |].
    eapply nothing_parsed_parse_line; eassumption.
Qed.

End Groups.

(** X13.  Rule lines are only read inside a group: a body without a
    user-agent line gives a parser without entries, so every agent may
    fetch every URL that [urlparse] accepts and has no crawl delay, whatever
    [Disallow] and [Crawl-delay] lines the body has. *)
Theorem rules_need_user_agent (w : World) (robots_url content : string)
        (rp : RobotParser.RobotFileParser) :
  load_robots w robots_url content = Return rp ->
  has_directive "user-agent" content = false ->
  RobotParser.entries rp = []
  /\ RobotParser.default_entry rp = None
  /\ (forall useragent, RobotParser.crawl_delay rp useragent = None)
  /\ (forall useragent url parsed,
         urlparse w (unquote w url) = Return parsed ->
         RobotParser.can_fetch w rp useragent url = Return true).
Proof.
  intros Hload Hno.
  assert (Hrp : RobotParser.entries rp = [] /\ RobotParser.default_entry rp = None).
  { unfold load_robots, has_directive in *.
    destruct (RobotParser.RobotFileParser_init w) as [rp0 |] eqn:E0; simpl in Hload;
      [| discriminate].
    destruct (RobotParser.set_url w rp0 robots_url) as [rp1 |] eqn:E1; simpl in Hload;
      [| discriminate].
    unfold RobotParser.parse in Hload.
    destruct (RobotParser.parse_lines w _ (splitlines content)) as [st |] eqn:E;
      simpl in Hload; [| discriminate].
    assert (Hst : nothing_parsed st).
    { eapply Groups.nothing_parsed_parse_lines; [exact Hno | exact E |].
      unfold RobotParser.RobotFileParser_init, RobotParser.set_url in E0, E1.
      destruct (urlparse w EmptyString) as [p0 |]; simpl in E0; [| discriminate].
      destruct (urlparse w robots_url) as [p1 |]; simpl in E1; [| discriminate].
      inversion E0; subst; clear E0. inversion E1; subst; clear E1.
      repeat split. }
    destruct Hst as [Hs [He Hd]]. rewrite Hs in Hload. cbn in Hload.
    inversion Hload; subst. split; assumption. }
  destruct Hrp as [He Hd].
  assert (Hm : forall ua, RobotParser.matching_entry rp ua = None)
    by (intros ua; unfold RobotParser.matching_entry; rewrite He, Hd; reflexivity).
  split; [exact He |]. split; [exact Hd |]. split.
  - intros ua. rewrite (crawl_delay_loaded _ _ _ _ ua Hload), Hm. reflexivity.
  - intros ua url parsed Hurl.
    rewrite (can_fetch_loaded _ _ _ _ ua _ _ Hload Hurl), Hm. reflexivity.
Qed.

(** ** The name of the agent *)

Module AgentName.
Import RobotParser.

Lemma lower_char_slash (c : ascii) :
  Ascii.eqb (lower_char c) "/" = Ascii.eqb c "/".
Proof.
  destruct c as [b0 b1 b2 b3 b4 b5 b6 b7].
  destruct b0, b1, b2, b3, b4, b5, b6, b7; reflexivity.
Qed.

Lemma split_lower (s : string) :
  split "/" (lower s) = map lower (split "/" s).
Proof.
  induction s as [| c t IH]; [reflexivity |].
  change (lower (String c t)) with (String (lower_char c) (lower t)).
  cbn [split]. rewrite lower_char_slash, IH.
  destruct (Ascii.eqb c "/"); [reflexivity |].
  destruct (split "/" t) as [| l ls]; reflexivity.
Qed.

Lemma split_nonempty (c : ascii) (s : string) : split c s <> [].
Proof.
  destruct s as [| d t]; cbn [split]; [discriminate |].
  destruct (Ascii.eqb d c); [discriminate |].
  destruct (split c t); discriminate.
Qed.

(** The token of an agent name: the text before its first [/], lowered. *)
Lemma token_lower (ua : string) :
  lower (hd EmptyString (split "/" (lower ua)))
  = lower (hd EmptyString (split "/" ua)).
Proof.
  rewrite split_lower. pose proof (split_nonempty "/" ua) as Hne.
  destruct (split "/" ua) as [| l ls]; [contradiction Hne; reflexivity |].
  cbn [map hd]. apply lower_idem.
Qed.

Lemma token_version (name version : string) :
  occurs "/" name = false ->
  hd EmptyString (split "/" (name ++ "/" ++ version))
  = hd EmptyString (split "/" name).
Proof.
  induction name as [| c t IH]; intros H.
  - reflexivity.
  - cbn [occurs] in H. apply orb_false_iff in H. destruct H as [Hc Ht].
    change (String c t ++ "/" ++ version) with (String c (t ++ "/" ++ version)).
    cbn [split]. rewrite Hc. specialize (IH Ht).
    pose proof (split_nonempty "/" (t ++ "/" ++ version)) as Hn1.
    pose proof (split_nonempty "/" t) as Hn2.
    destruct (split "/" (t ++ "/" ++ version)) as [| l1 ls1];
      [contradiction Hn1; reflexivity |].
    destruct (split "/" t) as [| l2 ls2]; [contradiction Hn2; reflexivity |].
    cbn [hd] in *. rewrite IH. reflexivity.
Qed.

(** Two agent names with the same token select the same entry. *)
Lemma matching_entry_token (rp : RobotFileParser) (ua1 ua2 : string) :
  lower (hd EmptyString (split "/" ua1)) = lower (hd EmptyString (split "/" ua2)) ->
  matching_entry rp ua1 = matching_entry rp ua2.
Proof.
  intros Htok. unfold matching_entry.
  assert (Hfirst : forall es, first_applying es ua1 = first_applying es ua2).
  { induction es as [| e rest IH]; [reflexivity |].
    cbn [first_applying]. unfold Entry_applies_to. rewrite Htok, IH. reflexivity. }
  rewrite Hfirst. reflexivity.
Qed.

Lemma can_fetch_token (w : World) (rp : RobotFileParser) (ua1 ua2 url : string) :
  lower (hd EmptyString (split "/" ua1)) = lower (hd EmptyString (split "/" ua2)) ->
  can_fetch w rp ua1 url = can_fetch w rp ua2 url.
Proof.
  intros Htok. unfold can_fetch. rewrite (matching_entry_token rp ua1 ua2 Htok).
  reflexivity.
Qed.

Lemma crawl_delay_token (rp : RobotFileParser) (ua1 ua2 : string) :
  lower (hd EmptyString (split "/" ua1)) = lower (hd EmptyString (split "/" ua2)) ->
  crawl_delay rp ua1 = crawl_delay rp ua2.
Proof.
  intros Htok. unfold crawl_delay. rewrite (matching_entry_token rp ua1 ua2 Htok).
  reflexivity.
Qed.

End AgentName.

Lemma check_site_token (w : World) (url ua1 ua2 : string) (timeout : Z) :
  lower (hd EmptyString (split "/" ua1)) = lower (hd EmptyString (split "/" ua2)) ->
  check_site w url ua1 timeout = check_site w url ua2 timeout.
Proof.
  intros Htok. unfold check_site, check_site_try.
  destruct (urlparse w (strip url)) as [p |]; cbn [bind]; [| reflexivity].
  destruct (requests_get w (robots_url_of p) timeout) as [resp |]; cbn [bind];
    [| reflexivity].
  destruct (negb (status_code resp =? 200)%Z); [reflexivity |].
  destruct (load_robots w (robots_url_of p) (text resp)) as [rp |]; cbn [bind];
    [| reflexivity].
  rewrite (AgentName.can_fetch_token w rp ua1 ua2 url Htok),
    (AgentName.crawl_delay_token rp ua1 ua2 Htok).
  reflexivity.
Qed.

(** X14.  The record does not depend on the casing of the agent name, nor
    on what follows its first slash: [check_site] gives the same record for
    [Googlebot/2.1], [googlebot] and [GOOGLEBOT]. *)
Theorem check_site_agent_token (w : World) (url user_agent : string) (timeout : Z) :
  check_site w url (lower user_agent) timeout = check_site w url user_agent timeout
  /\ (forall version,
         occurs "/" user_agent = false ->
         check_site w url (user_agent ++ "/" ++ version) timeout
         = check_site w url user_agent timeout).
Proof.
  split.
  - apply check_site_token. apply AgentName.token_lower.
  - intros version Hno. apply check_site_token. f_equal.
    apply AgentName.token_version. exact Hno.
Qed.

(** [check_site_agent_token] on a versioned agent name. *)
Lemma check_site_agent_token_witness :
  occurs "/" "Googlebot" = false
  /\ check_site Fixture.w_plain Fixture.url_plain ("Googlebot" ++ "/" ++ "2.1") 5
     = check_site Fixture.w_plain Fixture.url_plain "Googlebot" 5.
Proof.
  assert (H : occurs "/" "Googlebot" = false) by reflexivity.
  split; [exact H |].
  exact (proj2 (check_site_agent_token Fixture.w_plain Fixture.url_plain "Googlebot" 5)
           "2.1" H).
Defined.

(** ** The default agent *)

Module DefaultAgent.
Import RobotParser.

Lemma groups_within__add_entry (names : list string) (st : ParseState) (next : Entry) :
  groups_within names st ->
  incl (useragents next) names ->
  groups_within names (mkParseState (state st) next (_add_entry (self st) (entry st))).
Proof.
  intros [He [Hes Hd]] Hnext. unfold groups_within. cbn [entry self].
  split; [exact Hnext |]. unfold _add_entry.
  destruct (has_star (useragents (entry st))) eqn:Hstar.
  - destruct (default_entry (self st)) eqn:Hdef.
    + split; [exact Hes |]. intros e1 H1. rewrite Hdef in H1. apply Hd. exact H1.
    + split; [exact Hes |]. cbn. intros e1 H1. inversion H1; subst. split; assumption.
  - split; [| exact Hd]. cbn. apply Forall_app. split; [exact Hes |].
    constructor; [split; assumption | constructor].
Qed.

Lemma groups_within_entry (names : list string) (st : ParseState) (e : Entry) (s : Z) :
  groups_within names st ->
  incl (useragents e) names ->
  groups_within names (mkParseState s e (self st)).
Proof. intros [_ [Hes Hd]] He. split; [exact He | split; assumption]. Qed.

Lemma groups_within_blank_step (names : list string) (st : ParseState) :
  groups_within names st -> groups_within names (blank_step st).
Proof.
  intros H. unfold blank_step.
  destruct (state st =? 1)%Z.
  - apply groups_within_entry; [exact H | intros a []].
  - destruct (state st =? 2)%Z; [| exact H].
    pose proof (groups_within__add_entry names st Entry_init H) as H'.
    destruct H' as [H1 [H2 H3]]; [intros a [] |].
    split; [exact H1 | split; assumption].
Qed.

Lemma groups_within_parse_line (w : World) (names : list string) (st st' : ParseState)
      (line : string) :
  line_agent_within w names line ->
  parse_line w st line = Return st' ->
  groups_within names st -> groups_within names st'.
Proof.
  unfold parse_line, line_agent_within. intros Hline H Hst.
  assert (Hst1 : groups_within names (if truthy line then st else blank_step st))
    by (destruct (truthy line); [exact Hst | apply groups_within_blank_step; exact Hst]).
  revert H Hst1. generalize (if truthy line then st else blank_step st) as st1.
  clear st Hst. intros st1 H Hst.
  destruct (negb (truthy (strip (uncomment line)))); [inversion H; subst; exact Hst |].
  destruct (directive line) as [[name value] |]; [| inversion H; subst; exact Hst].
  destruct (String.eqb_spec name "user-agent") as [-> | Hname].
  { specialize (Hline value eq_refl). inversion H; subst; clear H.
    destruct (state st1 =? 2)%Z.
    - pose proof (groups_within__add_entry names st1 Entry_init Hst) as H'.
      destruct H' as [_ [H2 H3]]; [intros a [] |].
      split; [| split; assumption]. cbn. intros a [<- | []]. exact Hline.
    - destruct Hst as [H1 [H2 H3]]. split; [| split; assumption].
      cbn. intros a Ha. apply in_app_or in Ha. destruct Ha as [Ha | [<- | []]];
        [apply H1; exact Ha | exact Hline]. }
  destruct Hst as [H1 [H2 H3]].
  repeat match type of H with
         | (if ?b then _ else _) = Return _ => destruct b
         | bind ?m _ = Return _ => destruct m; simpl in H; [| discriminate H]
         end;
    inversion H; subst; clear H; (split; [| split; assumption]); cbn; try exact H1.
  - destruct (isdigit (strip (unquote w value))); exact H1.
  - destruct (split "/" (unquote w value)) as [| a [| b [| c l]]]; try exact H1.
    destruct (isdigit (strip a) && isdigit (strip b)); exact H1.
Qed.

Lemma groups_within_parse_lines (w : World) (names : list string) (lines : list string) :
  (forall line, In line lines -> line_agent_within w names line) ->
  forall st st', parse_lines w st lines = Return st' ->
                 groups_within names st -> groups_within names st'.
Proof.
  induction lines as [| line rest IH]; intros Hall st st' H Hst; simpl in H.
  - inversion H; subst. exact Hst.
  - destruct (parse_line w st line) as [st1 |] eqn:E; simpl in H; [| discriminate].
    eapply IH; [intros l Hl; apply Hall; right; exact Hl | exact H |].
    eapply groups_within_parse_line; [apply Hall; left; reflexivity | exact E | exact Hst].
Qed.

Lemma lower_char_star (c : ascii) : lower_char c = "*"%char -> c = "*"%char.
Proof.
  destruct c as [b0 b1 b2 b3 b4 b5 b6 b7].
  destruct b0, b1, b2, b3, b4, b5, b6, b7; cbn; intros H; try reflexivity;
    discriminate H.
Qed.

(** A name that is neither empty nor [*] is not found in the token [*]. *)
Lemma named_agent_not_in_star (a : string) :
  a <> EmptyString -> String.eqb a "*" = false -> contains (lower a) "*" = false.
Proof.
  intros Hne Hstar. destruct a as [| c t]; [contradiction Hne; reflexivity |].
  change (lower (String c t)) with (String (lower_char c) (lower t)).
  cbn [contains String.prefix]. rewrite !orb_false_r.
  destruct (ascii_dec (lower_char c) "*") as [Hc | Hc]; [| reflexivity].
  apply lower_char_star in Hc. subst c.
  destruct t as [| d t']; [discriminate Hstar | reflexivity].
Qed.

Lemma has_star_false (agents : list string) (a : string) :
  has_star agents = false -> In a agents -> String.eqb a "*" = false.
Proof.
  unfold has_star. induction agents as [| b rest IH]; intros H Ha; [destruct Ha |].
  cbn [existsb] in H. apply orb_false_iff in H. destruct H as [Hb Hrest].
  destruct Ha as [<- | Ha]; [exact Hb | apply IH; assumption].
Qed.

Lemma has_star_true (agents : list string) : has_star agents = true -> In "*" agents.
Proof.
  unfold has_star. intros H. apply existsb_exists in H. destruct H as [a [Ha Hs]].
  apply String.eqb_eq in Hs. subst a. exact Ha.
Qed.

Lemma named_entry_not_default_agent (names : list string) (e : Entry) :
  ~ In EmptyString names ->
  incl (useragents e) names ->
  has_star (useragents e) = false ->
  Entry_applies_to e "*" = false.
Proof.
  intros Hnames Hin Hstar. unfold Entry_applies_to.
  change (lower (hd EmptyString (split "/" "*"))) with "*".
  revert Hin Hstar. induction (useragents e) as [| a rest IH]; intros Hin Hstar;
    [reflexivity |].
  cbn [agents_apply].
  rewrite (has_star_false (a :: rest) a Hstar (or_introl eq_refl)).
  rewrite named_agent_not_in_star.
  - apply IH.
    + intros b Hb. apply Hin. right. exact Hb.
    + unfold has_star in *. cbn [existsb] in Hstar. apply orb_false_iff in Hstar.
      apply Hstar.
  - intros Ha. apply Hnames. rewrite <- Ha. apply Hin. left. reflexivity.
  - exact (has_star_false (a :: rest) a Hstar (or_introl eq_refl)).
Qed.

End DefaultAgent.

Lemma agent_values_line (w : World) (content line : string) :
  In line (splitlines content) -> line_agent_within w (agent_values w content) line.
Proof.
  intros Hline value Hdir. unfold agent_values. apply in_flat_map.
  exists line. split; [exact Hline |]. rewrite Hdir. left. reflexivity.
Qed.

Lemma load_robots_groups_within (w : World) (robots_url content : string)
      (rp : RobotParser.RobotFileParser) :
  load_robots w robots_url content = Return rp ->
  Forall (fun e => incl (RobotParser.useragents e) (agent_values w content)
                   /\ RobotParser.has_star (RobotParser.useragents e) = false)
         (RobotParser.entries rp)
  /\ (forall e, RobotParser.default_entry rp = Some e ->
                incl (RobotParser.useragents e) (agent_values w content)
                /\ RobotParser.has_star (RobotParser.useragents e) = true).
Proof.
  intros Hload. unfold load_robots in Hload.
  destruct (RobotParser.RobotFileParser_init w) as [rp0 |] eqn:E0; simpl in Hload;
    [| discriminate].
  destruct (RobotParser.set_url w rp0 robots_url) as [rp1 |] eqn:E1; simpl in Hload;
    [| discriminate].
  unfold RobotParser.parse in Hload.
  destruct (RobotParser.parse_lines w _ (splitlines content)) as [st |] eqn:E;
    simpl in Hload; [| discriminate].
  assert (Hst : groups_within (agent_values w content) st).
  { eapply DefaultAgent.groups_within_parse_lines;
      [intros line Hl; apply agent_values_line; exact Hl | exact E |].
    unfold RobotParser.RobotFileParser_init, RobotParser.set_url in E0, E1.
    destruct (urlparse w EmptyString) as [p0 |]; simpl in E0; [| discriminate].
    destruct (urlparse w robots_url) as [p1 |]; simpl in E1; [| discriminate].
    inversion E0; subst; clear E0. inversion E1; subst; clear E1.
    split; [intros a [] |]. split; [constructor | discriminate]. }
  inversion Hload; subst; clear Hload.
  destruct (RobotParser.state st =? 2)%Z.
  - pose proof (DefaultAgent.groups_within__add_entry _ st RobotParser.Entry_init Hst)
      as H'.
    destruct H' as [_ [H2 H3]]; [intros a [] |]. split; assumption.
  - destruct Hst as [_ [H2 H3]]. split; assumption.
Qed.

(** X15.  With the default agent [*] of the handler, and no user-agent
    line with an empty value, the groups for named crawlers are never
    consulted: the verdict is the one of the [User-agent: *] group, and
    without such a group every URL that [urlparse] accepts may be fetched
    and there is no crawl delay. *)
Theorem default_agent_reads_star_group (w : World) (robots_url content : string)
        (rp : RobotParser.RobotFileParser) :
  load_robots w robots_url content = Return rp ->
  ~ In EmptyString (agent_values w content) ->
  RobotParser.matching_entry rp "*" = RobotParser.default_entry rp
  /\ (~ In "*" (agent_values w content) ->
      RobotParser.crawl_delay rp "*" = None
      /\ forall url parsed,
          urlparse w (unquote w url) = Return parsed ->
          RobotParser.can_fetch w rp "*" url = Return true).
Proof.
  intros Hload Hnames.
  destruct (load_robots_groups_within w robots_url content rp Hload) as [Hes Hd].
  assert (Hm : RobotParser.matching_entry rp "*" = RobotParser.default_entry rp).
  { unfold RobotParser.matching_entry.
    induction Hes as [| e rest [Hin Hstar] _ IH]; [reflexivity |].
    cbn [RobotParser.first_applying].
    rewrite (DefaultAgent.named_entry_not_default_agent _ e Hnames Hin Hstar).
    exact IH. }
  split; [exact Hm |]. intros Hstar.
  assert (Hnone : RobotParser.default_entry rp = None).
  { destruct (RobotParser.default_entry rp) as [e |] eqn:E; [| reflexivity].
    destruct (Hd e eq_refl) as [Hin Hs]. exfalso. apply Hstar. apply Hin.
    apply DefaultAgent.has_star_true. exact Hs. }
  rewrite Hnone in Hm. split.
  - rewrite (crawl_delay_loaded _ _ _ _ "*" Hload), Hm. reflexivity.
  - intros url parsed Hurl.
    rewrite (can_fetch_loaded _ _ _ _ "*" _ _ Hload Hurl), Hm. reflexivity.
Qed.

(** ** The URLs read from the text area *)

Module InputLines.

Lemma linebreak_is_space (c : ascii) : is_linebreak c = true -> isspace c = true.
Proof.
  destruct c as [b0 b1 b2 b3 b4 b5 b6 b7].
  destruct b0, b1, b2, b3, b4, b5, b6, b7; cbn; intros H; try reflexivity;
    discriminate H.
Qed.

Lemma lstrip_starts (s : string) : starts_with_space (lstrip s) = false.
Proof.
  induction s as [| c t IH]; [reflexivity |].
  cbn [lstrip]. destruct (isspace c) eqn:E; [exact IH | cbn; exact E].
Qed.

Lemma lstrip_fixed (s : string) : starts_with_space s = false -> lstrip s = s.
Proof.
  destruct s as [| c t]; [reflexivity |]. cbn. intros H. rewrite H. reflexivity.
Qed.

Lemma rstrip_starts (s : string) :
  starts_with_space s = false -> starts_with_space (rstrip s) = false.
Proof.
  destruct s as [| c t]; [reflexivity |]. cbn [starts_with_space rstrip]. intros H.
  rewrite H. destruct (rstrip t); cbn; exact H.
Qed.

Lemma rstrip_idem (s : string) : rstrip (rstrip s) = rstrip s.
Proof.
  induction s as [| c t IH]; [reflexivity |].
  cbn [rstrip]. destruct (rstrip t) as [| d r] eqn:E.
  - destruct (isspace c) eqn:Hc; [reflexivity |]. cbn [rstrip]. rewrite Hc. reflexivity.
  - change (rstrip (String c (String d r)))
      with (match rstrip (String d r) with
            | EmptyString => if isspace c then EmptyString else String c EmptyString
            | r' => String c r'
            end).
    rewrite IH. reflexivity.
Qed.

Lemma strip_idem (s : string) : strip (strip s) = strip s.
Proof.
  unfold strip.
  rewrite (lstrip_fixed (rstrip (lstrip s))) by (apply rstrip_starts, lstrip_starts).
  apply rstrip_idem.
Qed.

Lemma lstrip_forall (p : ascii -> bool) (s : string) :
  forall_chars p s = true -> forall_chars p (lstrip s) = true.
Proof.
  induction s as [| c t IH]; [reflexivity |].
  intros H. cbn [lstrip]. destruct (isspace c); [| exact H].
  cbn [forall_chars] in H. apply andb_true_iff in H. apply IH, H.
Qed.

Lemma rstrip_forall (p : ascii -> bool) (s : string) :
  forall_chars p s = true -> forall_chars p (rstrip s) = true.
Proof.
  induction s as [| c t IH]; [reflexivity |].
  intros H. cbn [forall_chars] in H. apply andb_true_iff in H. destruct H as [Hc Ht].
  cbn [rstrip]. specialize (IH Ht). destruct (rstrip t) as [| d r].
  - destruct (isspace c); [reflexivity |]. cbn. rewrite Hc. reflexivity.
  - cbn [forall_chars] in *. rewrite Hc, IH. reflexivity.
Qed.

Lemma strip_forall (p : ascii -> bool) (s : string) :
  forall_chars p s = true -> forall_chars p (strip s) = true.
Proof. intros H. unfold strip. apply rstrip_forall, lstrip_forall, H. Qed.

(** No line of [splitlines] contains a line boundary. *)
Lemma splitlines_go_no_break (s : string) :
  forall after_cr,
    Forall (fun line => forall_chars (fun c => negb (is_linebreak c)) line = true)
           (splitlines_go after_cr s).
Proof.
  induction s as [| c t IH]; intros after_cr; cbn [splitlines_go]; [constructor |].
  destruct (after_cr && Ascii.eqb c LF); [apply IH |].
  destruct (is_linebreak c) eqn:Hc.
  - constructor; [reflexivity | apply IH].
  - specialize (IH false). destruct (splitlines_go false t) as [| l ls].
    + constructor; [cbn; rewrite Hc; reflexivity | constructor].
    + inversion IH; subst. constructor; [| assumption].
      cbn [forall_chars]. rewrite Hc. cbn. assumption.
Qed.

(** A text of whitespace only strips to nothing; any other text strips to
    a text that is not empty. *)
Lemma strip_blank (s : string) : forall_chars isspace s = true -> strip s = EmptyString.
Proof.
  intros H. unfold strip.
  assert (Hl : lstrip s = EmptyString).
  { induction s as [| c t IH]; [reflexivity |].
    cbn [forall_chars] in H. apply andb_true_iff in H. destruct H as [Hc Ht].
    cbn [lstrip]. rewrite Hc. apply IH, Ht. }
  rewrite Hl. reflexivity.
Qed.

Lemma strip_not_blank (s : string) :
  forall_chars isspace s = false -> truthy (strip s) = true.
Proof.
  intros H. unfold strip.
  assert (Hl : exists c t, lstrip s = String c t /\ isspace c = false).
  { induction s as [| c t IH]; [discriminate H |].
    cbn [forall_chars] in H. cbn [lstrip]. destruct (isspace c) eqn:Hc.
    - apply IH. exact H.
    - exists c, t. split; [reflexivity | exact Hc]. }
  destruct Hl as [c [t [Hl Hc]]]. rewrite Hl. cbn [rstrip]. rewrite Hc.
  destruct (rstrip t); reflexivity.
Qed.

Lemma strip_blank_iff (s : string) :
  forall_chars isspace (strip s) = forall_chars isspace s.
Proof.
  destruct (forall_chars isspace s) eqn:E.
  - rewrite (strip_blank s E). reflexivity.
  - pose proof (strip_not_blank s E) as Ht. unfold strip in *.
    assert (Hl : starts_with_space (rstrip (lstrip s)) = false)
      by apply rstrip_starts, lstrip_starts.
    destruct (rstrip (lstrip s)) as [| c r]; [discriminate Ht |].
    cbn in Hl |- *. rewrite Hl. reflexivity.
Qed.

(** A text that is not blank has a line that is not blank. *)
Lemma splitlines_go_not_blank (s : string) :
  forall after_cr,
    forall_chars isspace s = false ->
    exists line, In line (splitlines_go after_cr s) /\ forall_chars isspace line = false.
Proof.
  induction s as [| c t IH]; intros after_cr H; [discriminate H |].
  cbn [forall_chars] in H. cbn [splitlines_go].
  destruct (after_cr && Ascii.eqb c LF) eqn:Hskip.
  - apply andb_true_iff in Hskip. destruct Hskip as [_ Hc].
    apply Ascii.eqb_eq in Hc. subst c. cbn in H. apply IH. exact H.
  - destruct (is_linebreak c) eqn:Hb.
    + rewrite (linebreak_is_space c Hb) in H. cbn in H.
      destruct (IH (Ascii.eqb c CR) H) as [line [Hin Hl]].
      exists line. split; [right; exact Hin | exact Hl].
    + destruct (isspace c) eqn:Hc.
      * cbn in H. destruct (IH false H) as [line [Hin Hl]].
        destruct (splitlines_go false t) as [| l ls]; [destruct Hin |].
        destruct Hin as [<- | Hin].
        -- exists (String c l). split; [left; reflexivity |].
           cbn. rewrite Hc. exact Hl.
        -- exists line. split; [right; exact Hin | exact Hl].
      * destruct (splitlines_go false t) as [| l ls].
        -- exists (String c EmptyString). split; [left; reflexivity |].
           cbn. rewrite Hc. reflexivity.
        -- exists (String c l). split; [left; reflexivity |].
           cbn. rewrite Hc. reflexivity.
Qed.

End InputLines.

(** X16.  Every URL the handler submits is not empty, has no whitespace at
    either end, so that the [strip] of [check_site] leaves it as it is, and
    contains no line boundary. *)
Theorem input_urls_clean (input_text u : string) :
  In u (Handler.input_urls input_text) ->
  truthy u = true
  /\ strip u = u
  /\ forall_chars (fun c => negb (is_linebreak c)) u = true.
Proof.
  unfold Handler.input_urls. intros H. apply in_map_iff in H.
  destruct H as [line [<- Hline]]. apply filter_In in Hline.
  destruct Hline as [Hin Htruthy].
  split; [exact Htruthy |]. split; [apply InputLines.strip_idem |].
  apply InputLines.strip_forall.
  pose proof (InputLines.splitlines_go_no_break (strip input_text) false) as Hall.
  rewrite Forall_forall in Hall. apply Hall. exact Hin.
Qed.

(** [input_urls_clean] on a text with blank lines, a CR LF boundary and
    padded URLs. *)
Lemma input_urls_clean_witness :
  In "https://x.com/page"
     (Handler.input_urls ("  " ++ nl ++ " https://x.com/page  " ++ cr ++ nl ++ "b.org"))
  /\ strip "https://x.com/page" = "https://x.com/page".
Proof.
  assert (H : In "https://x.com/page"
                 (Handler.input_urls
                    ("  " ++ nl ++ " https://x.com/page  " ++ cr ++ nl ++ "b.org")))
    by (left; reflexivity).
  split; [exact H |].
  exact (proj1 (proj2 (input_urls_clean _ _ H))).
Defined.

(** X17.  The handler has no URL to submit, and shows its warning, exactly
    when the text area holds nothing but whitespace. *)
Theorem input_urls_empty_iff_blank (input_text : string) :
  Handler.input_urls input_text = [] <-> forall_chars isspace input_text = true.
Proof.
  unfold Handler.input_urls. split.
  - intros H. destruct (forall_chars isspace input_text) eqn:E; [reflexivity |].
    exfalso. rewrite <- InputLines.strip_blank_iff in E.
    destruct (InputLines.splitlines_go_not_blank (strip input_text) false E)
      as [line [Hin Hl]].
    assert (Hu : In (strip line)
                    (map strip (filter (fun l => truthy (strip l))
                                       (splitlines (strip input_text))))).
    { apply in_map. apply filter_In. split; [exact Hin |].
      apply InputLines.strip_not_blank. exact Hl. }
    rewrite H in Hu. destruct Hu.
  - intros H. rewrite (InputLines.strip_blank input_text H). reflexivity.
Qed.

(** ** The results of a batch *)




(** ** Escaping *)

Module Escaping.
Import Handler.

Lemma occurs_app (c : ascii) (a b : string) :
  occurs c (a ++ b) = occurs c a || occurs c b.
Proof.
  induction a as [| d t IH]; simpl; [reflexivity |].
  rewrite IH, orb_assoc. reflexivity.
Qed.

(** The replaced character is gone when the replacement does not bring it
    back, and a character that is neither in the text nor in the
    replacement does not appear. *)
Lemma replace_char_removes (c : ascii) (new s : string) :
  occurs c new = false -> occurs c (replace_char c new s) = false.
Proof.
  intros Hnew. induction s as [| d t IH]; [reflexivity |].
  cbn [replace_char]. destruct (Ascii.eqb d c) eqn:E.
  - rewrite occurs_app, Hnew, IH. reflexivity.
  - cbn [occurs]. rewrite E, IH. reflexivity.
Qed.

Lemma replace_char_keeps_absent (d c : ascii) (new s : string) :
  occurs d new = false -> occurs d s = false ->
  occurs d (replace_char c new s) = false.
Proof.
  intros Hnew. induction s as [| e t IH]; intros Hs; [reflexivity |].
  cbn [occurs] in Hs. apply orb_false_iff in Hs. destruct Hs as [He Ht].
  cbn [replace_char]. destruct (Ascii.eqb e c).
  - rewrite occurs_app, Hnew, (IH Ht). reflexivity.
  - cbn [occurs]. rewrite He, (IH Ht). reflexivity.
Qed.

Lemma replace_char_absent (c : ascii) (new s : string) :
  occurs c s = false -> replace_char c new s = s.
Proof.
  induction s as [| d t IH]; [reflexivity |].
  cbn [occurs]. intros H. apply orb_false_iff in H. destruct H as [Hd Ht].
  cbn [replace_char]. rewrite Hd, (IH Ht). reflexivity.
Qed.

Lemma append_assoc (a b c : string) : (a ++ b) ++ c = a ++ b ++ c.
Proof. induction a as [| d t IH]; simpl; [| rewrite IH]; reflexivity. Qed.

Lemma replace_char_app (c : ascii) (new a b : string) :
  replace_char c new (a ++ b) = replace_char c new a ++ replace_char c new b.
Proof.
  induction a as [| d t IH]; [reflexivity |].
  change (String d t ++ b) with (String d (t ++ b)). cbn [replace_char].
  rewrite IH. destruct (Ascii.eqb d c); [| reflexivity].
  symmetry. apply append_assoc.
Qed.

Lemma escape_app (a b : string) : escape (a ++ b) = escape a ++ escape b.
Proof. unfold escape. rewrite !replace_char_app. reflexivity. Qed.

End Escaping.

Lemma escape_removes_markup (s : string) :
  occurs "<" (Handler.escape s) = false
  /\ occurs ">" (Handler.escape s) = false
  /\ occurs "034" (Handler.escape s) = false
  /\ occurs "'" (Handler.escape s) = false.
Proof.
  unfold Handler.escape. repeat split.
  - do 3 (apply Escaping.replace_char_keeps_absent; [reflexivity |]).
    apply Escaping.replace_char_removes. reflexivity.
  - do 2 (apply Escaping.replace_char_keeps_absent; [reflexivity |]).
    apply Escaping.replace_char_removes. reflexivity.
  - apply Escaping.replace_char_keeps_absent; [reflexivity |].
    apply Escaping.replace_char_removes. reflexivity.
  - apply Escaping.replace_char_removes. reflexivity.
Qed.

(** X19.  An escaped text has no angle bracket and no quote of either
    kind, whatever the robots file put into the field: the sitemap and the
    two path lists are shown without markup of their own. *)
Theorem escape_no_markup (row : Row) :
  forall c, In c ["<"; ">"; "034"; "'"]%char ->
            occurs c (Handler.shown_sitemap row) = false
            /\ occurs c (Handler.shown_disallowed row) = false
            /\ occurs c (Handler.shown_allowed row) = false
            /\ occurs c (Handler.shown_preview row) = false.
Proof.
  intros c Hc. unfold Handler.shown_sitemap, Handler.shown_disallowed,
    Handler.shown_allowed, Handler.shown_preview.
  destruct Hc as [<- | [<- | [<- | [<- | []]]]]; repeat split;
    apply escape_removes_markup.
Qed.

(** X20.  The line break tags put in place of the commas of the preview
    are escaped with the rest: every comma is shown as the text
    [&lt;br&gt;], and no tag [<br>] reaches the page. *)
Theorem shown_preview_has_no_break_tag (row : Row) :
  Handler.shown_preview row
  = Handler.replace_char "," "&lt;br&gt;" (Handler.escape (Sitemap_Preview row))
  /\ contains "<br>" (Handler.shown_preview row) = false.
Proof.
  unfold Handler.shown_preview. split.
  - induction (Sitemap_Preview row) as [| c t IH]; [reflexivity |].
    cbn [Handler.replace_char]. destruct (Ascii.eqb_spec c ",") as [-> | Hc].
    + rewrite Escaping.escape_app, IH. reflexivity.
    + change (String c (Handler.replace_char "," "<br>" t))
        with (String c EmptyString ++ Handler.replace_char "," "<br>" t).
      change (String c t) with (String c EmptyString ++ t).
      rewrite !Escaping.escape_app, IH, Escaping.replace_char_app. f_equal.
      apply Ascii.eqb_neq in Hc.
      assert (Hcases : Handler.escape (String c EmptyString) = String c EmptyString
                       \/ occurs "," (Handler.escape (String c EmptyString)) = false).
      { unfold Handler.escape. cbn [Handler.replace_char].
        destruct (Ascii.eqb c "&") eqn:E1; [right; reflexivity |].
        cbn [Handler.replace_char].
        destruct (Ascii.eqb c "<") eqn:E2; [right; reflexivity |].
        cbn [Handler.replace_char].
        destruct (Ascii.eqb c ">") eqn:E3; [right; reflexivity |].
        cbn [Handler.replace_char].
        destruct (Ascii.eqb c "034") eqn:E4; [right; reflexivity |].
        cbn [Handler.replace_char].
        destruct (Ascii.eqb c "'") eqn:E5; [right; reflexivity |].
        left. reflexivity. }
      destruct Hcases as [He | He].
      * rewrite He. cbn [Handler.replace_char]. rewrite Hc. reflexivity.
      * symmetry. apply Escaping.replace_char_absent. exact He.
  - destruct (contains "<br>" (Handler.escape
                (Handler.replace_char "," "<br>" (Sitemap_Preview row)))) eqn:E;
      [| reflexivity].
    pose proof (contains_occurs "<" "<br>" _ E eq_refl) as Hocc.
    rewrite (proj1 (escape_removes_markup _)) in Hocc. discriminate Hocc.
Qed.

(** [rules_need_user_agent] on a body that disallows everything outside
    every group. *)
Lemma rules_need_user_agent_witness :
  load_robots GroupFixture.w_loose "https://x.com/robots.txt" GroupFixture.robots_loose
  = Return GroupFixture.rp_loose
  /\ has_directive "user-agent" GroupFixture.robots_loose = false
  /\ has_directive "disallow" GroupFixture.robots_loose = true
  /\ RobotParser.can_fetch GroupFixture.w_loose GroupFixture.rp_loose "*" Fixture.url_x
     = Return true
  /\ RobotParser.crawl_delay GroupFixture.rp_loose "*" = None.
Proof.
  assert (H1 : load_robots GroupFixture.w_loose "https://x.com/robots.txt"
                 GroupFixture.robots_loose = Return GroupFixture.rp_loose)
    by reflexivity.
  assert (H2 : has_directive "user-agent" GroupFixture.robots_loose = false)
    by reflexivity.
  split; [exact H1 |]. split; [exact H2 |]. split; [reflexivity |].
  destruct (rules_need_user_agent GroupFixture.w_loose "https://x.com/robots.txt"
              GroupFixture.robots_loose GroupFixture.rp_loose H1 H2)
    as [_ [_ [Hdelay Hfetch]]].
  split; [| apply Hdelay].
  apply (Hfetch "*" Fixture.url_x
           (mkParseResult "https" "x.com" "/page" EmptyString EmptyString EmptyString)).
  reflexivity.
Defined.

(** [default_agent_reads_star_group] on a body that keeps Googlebot out of
    everything: the default agent may fetch the page. *)
Lemma default_agent_reads_star_group_witness :
  load_robots GroupFixture.w_named "https://x.com/robots.txt" GroupFixture.robots_named
  = Return GroupFixture.rp_named
  /\ agent_values GroupFixture.w_named GroupFixture.robots_named = ["Googlebot"]
  /\ RobotParser.can_fetch GroupFixture.w_named GroupFixture.rp_named "Googlebot"
       Fixture.url_x = Return false
  /\ RobotParser.can_fetch GroupFixture.w_named GroupFixture.rp_named "*" Fixture.url_x
     = Return true.
Proof.
  assert (H1 : load_robots GroupFixture.w_named "https://x.com/robots.txt"
                 GroupFixture.robots_named = Return GroupFixture.rp_named)
    by reflexivity.
  assert (H2 : ~ In EmptyString (agent_values GroupFixture.w_named
                                   GroupFixture.robots_named))
    by (intros [H | []]; discriminate H).
  assert (H3 : ~ In "*" (agent_values GroupFixture.w_named GroupFixture.robots_named))
    by (intros [H | []]; discriminate H).
  split; [exact H1 |]. split; [reflexivity |]. split; [reflexivity |].
  destruct (default_agent_reads_star_group GroupFixture.w_named
              "https://x.com/robots.txt" GroupFixture.robots_named
              GroupFixture.rp_named H1 H2) as [_ Hstar].
  apply (proj2 (Hstar H3) Fixture.url_x
           (mkParseResult "https" "x.com" "/page" EmptyString EmptyString EmptyString)).
  reflexivity.
Defined.

(** ** [Disallow] lines without value *)

Module OpenDisallow.
Import RobotParser.

Lemma RuleLine_init_empty (w : World) (b : bool) (r : RuleLine) :
  RuleLine_init w EmptyString b = Return r -> rl_allowance r = true.
Proof.
  unfold RuleLine_init. intros H.
  destruct (urlparse w EmptyString); simpl in H; [| discriminate].
  inversion H; subst. cbn. destruct b; reflexivity.
Qed.

Lemma open_disallow_parse_line (w : World) (st st' : ParseState) (line : string) :
  line_disallow_empty w line ->
  parse_line w st line = Return st' ->
  state_all_allow st -> state_all_allow st'.
Proof.
  unfold parse_line, line_disallow_empty. intros Hline H Hst.
  assert (Hst1 : state_all_allow (if truthy line then st else blank_step st))
    by (destruct (truthy line);
        [exact Hst | apply AllowOnly.state_all_allow_blank_step; exact Hst]).
  revert H Hst1. generalize (if truthy line then st else blank_step st) as st1.
  clear st Hst. intros st1 H [He Hf].
  destruct (negb (truthy (strip (uncomment line)))); [inversion H; subst; split; assumption |].
  destruct (directive line) as [[name value] |]; [| inversion H; subst; split; assumption].
  destruct (String.eqb name "user-agent").
  { inversion H; subst; clear H. destruct (state st1 =? 2)%Z; cbn.
    - split; [reflexivity |]. apply AllowOnly.file_all_allow__add_entry; assumption.
    - split; [exact He | exact Hf]. }
  destruct (String.eqb_spec name "disallow") as [-> | Hname].
  { destruct (negb (state st1 =? 0)%Z); [| inversion H; subst; split; assumption].
    rewrite (Hline value eq_refl) in H.
    destruct (RuleLine_init w EmptyString false) as [r |] eqn:Hr; simpl in H;
      [| discriminate].
    inversion H; subst; clear H. split; [| exact Hf]. cbn.
    apply AllowOnly.all_allow_add_ruleline; [exact He |].
    eapply RuleLine_init_empty. exact Hr. }
  destruct (String.eqb name "allow").
  { destruct (negb (state st1 =? 0)%Z); [| inversion H; subst; split; assumption].
    destruct (RuleLine_init w (unquote w value) true) as [r |] eqn:Hr; simpl in H;
      [| discriminate].
    inversion H; subst; clear H. split; [| exact Hf]. cbn.
    apply AllowOnly.all_allow_add_ruleline; [exact He |].
    eapply AllowOnly.RuleLine_init_allow. exact Hr. }
  destruct (String.eqb name "crawl-delay").
  { destruct (negb (state st1 =? 0)%Z); [| inversion H; subst; split; assumption].
    inversion H; subst; clear H. split; [| exact Hf]. cbn.
    destruct (isdigit (strip (unquote w value))); exact He. }
  destruct (String.eqb name "request-rate").
  { destruct (negb (state st1 =? 0)%Z); [| inversion H; subst; split; assumption].
    inversion H; subst; clear H. split; [| exact Hf]. cbn.
    destruct (split "/" (unquote w value)) as [| a [| b [| c l]]]; try exact He.
    destruct (isdigit (strip a) && isdigit (strip b)); exact He. }
  destruct (String.eqb name "sitemap"); inversion H; subst; clear H;
    split; assumption.
Qed.

Lemma open_disallow_parse_lines (w : World) (lines : list string) :
  (forall line, In line lines -> line_disallow_empty w line) ->
  forall st st', parse_lines w st lines = Return st' ->
                 state_all_allow st -> state_all_allow st'.
Proof.
  induction lines as [| line rest IH]; intros Hall st st' H Hst; simpl in H.
  - inversion H; subst. exact Hst.
  - destruct (parse_line w st line) as [st1 |] eqn:E; simpl in H; [| discriminate].
    eapply IH; [intros l Hl; apply Hall; right; exact Hl | exact H |].
    eapply open_disallow_parse_line; [apply Hall; left; reflexivity | exact E | exact Hst].
Qed.

End OpenDisallow.

(** X21.  A [Disallow] line without value allows: when every [Disallow]
    line of the body has an empty value, every agent may fetch every URL
    that [urlparse] accepts. *)
Theorem empty_disallow_allows (w : World) (robots_url content : string)
        (rp : RobotParser.RobotFileParser) (useragent url : string)
        (parsed : ParseResult) :
  load_robots w robots_url content = Return rp ->
  urlparse w (unquote w url) = Return parsed ->
  (forall line, In line (splitlines content) -> line_disallow_empty w line) ->
  RobotParser.can_fetch w rp useragent url = Return true.
Proof.
  intros Hload Hurl Hlines.
  rewrite (can_fetch_loaded _ _ _ _ _ _ _ Hload Hurl).
  destruct (RobotParser.matching_entry rp useragent) as [e |] eqn:E; [| reflexivity].
  f_equal. apply AllowOnly.lines_allowance_all_allow.
  eapply AllowOnly.matching_entry_all_allow; [| exact E].
  unfold load_robots in Hload.
  destruct (RobotParser.RobotFileParser_init w) as [rp0 |] eqn:E0; simpl in Hload;
    [| discriminate].
  destruct (RobotParser.set_url w rp0 robots_url) as [rp1 |] eqn:E1; simpl in Hload;
    [| discriminate].
  unfold RobotParser.parse in Hload.
  destruct (RobotParser.parse_lines w _ (splitlines content)) as [st |] eqn:Ep;
    simpl in Hload; [| discriminate].
  assert (Hst : RobotParser.state_all_allow st).
  { eapply OpenDisallow.open_disallow_parse_lines; [exact Hlines | exact Ep |].
    unfold RobotParser.RobotFileParser_init, RobotParser.set_url in E0, E1.
    destruct (urlparse w EmptyString) as [p0 |]; simpl in E0; [| discriminate].
    destruct (urlparse w robots_url) as [p1 |]; simpl in E1; [| discriminate].
    inversion E0; subst; clear E0. inversion E1; subst; clear E1.
    split; [reflexivity |]. split; cbn; [constructor | discriminate]. }
  destruct Hst as [He Hf]. inversion Hload; subst; clear Hload.
  destruct (RobotParser.state st =? 2)%Z;
    [apply AllowOnly.file_all_allow__add_entry; assumption | exact Hf].
Qed.

(** [empty_disallow_allows] on the usual body that allows everything. *)
Lemma empty_disallow_allows_witness :
  load_robots GroupFixture.w_open "https://x.com/robots.txt" GroupFixture.robots_open
  = Return GroupFixture.rp_open
  /\ has_directive "disallow" GroupFixture.robots_open = true
  /\ RobotParser.can_fetch GroupFixture.w_open GroupFixture.rp_open "*" Fixture.url_x
     = Return true.
Proof.
  assert (H1 : load_robots GroupFixture.w_open "https://x.com/robots.txt"
                 GroupFixture.robots_open = Return GroupFixture.rp_open)
    by reflexivity.
  split; [exact H1 |]. split; [reflexivity |].
  apply (empty_disallow_allows GroupFixture.w_open "https://x.com/robots.txt"
           GroupFixture.robots_open GroupFixture.rp_open "*" Fixture.url_x
           (mkParseResult "https" "x.com" "/page" EmptyString EmptyString EmptyString)
           H1 eq_refl).
  intros line Hline value Hdir.
  destruct Hline as [<- | [<- | [<- | []]]]; vm_compute in Hdir;
    first [discriminate Hdir | inversion Hdir; reflexivity].
Defined.

(** ** What can degrade a record *)

Module Totality.
Import RobotParser.

Section TotalUrlparse.

Variable w : World.
Hypothesis Htotal : forall s, exists p, urlparse w s = Return p.






End TotalUrlparse.

End Totality.


(** [escape_no_markup] on the record of [Fixture.w_demo]. *)
Lemma escape_no_markup_witness :
  In "<"%char ["<"; ">"; "034"; "'"]%char
  /\ occurs "<" (Handler.shown_sitemap (check_site Fixture.w_demo Fixture.url_demo "*" 5))
     = false.
Proof.
  assert (H : In "<"%char ["<"; ">"; "034"; "'"]%char) by (left; reflexivity).
  split; [exact H |].
  exact (proj1 (escape_no_markup (check_site Fixture.w_demo Fixture.url_demo "*" 5)
                  "<"%char H)).
Defined.


